(** * SH-BYOC: the Ingestor of [src/collections.py], embedded and verified

    The Python methods of [Ingestor] are translated to Rocq functions:
    - Python [str] is [string], Python [int] is [Z], a [dict] is a [gmap];
    - exceptions are values of [exn], a computation that may raise has type
      [result A], and the statements of a method are sequenced by the
      bind of that monad;
    - a method that mutates [self] returns the new [Ingestor] next to its
      result;
    - the remote catalog and the S3 paginator are explicit arguments. *)

From Stdlib Require Import ZArith Ascii String Lia.
From stdpp Require Import base option list strings gmap fin_maps countable.

Local Open Scope string_scope.
Local Open Scope Z_scope.
Local Open Scope list_scope.

(** ** Exceptions and the result monad *)

Inductive exn : Type :=
  | IndexError                                  (* list index out of range *)
  | ValueError_empty_separator                  (* str.split with an empty separator *)
  | ValueError_time_data (data fmt : string)    (* datetime.strptime rejects data *)
  | ValueError_message (msg : string)           (* raise ValueError(msg) *)
  | KeyError (key : string)                     (* d[key] with key absent *)
  | ClientError (code : string)                 (* botocore failure of a listing *)
  | AttributeError (attribute : string).        (* x.attribute on an object without it *)

Inductive result (A : Type) : Type :=
  | Ok (a : A)
  | Raise (e : exn).
Arguments Ok {A} a.
Arguments Raise {A} e.

#[global] Instance result_ret : MRet result := fun A a => Ok a.
#[global] Instance result_bind : MBind result := fun A B f m =>
  match m with
  | Ok a => f a
  | Raise e => Raise e
  end.

Definition is_ok {A} (r : result A) : bool :=
  match r with Ok _ => true | Raise _ => false end.

(** Left-to-right loop whose body may raise: [for x in xs: s = body(x, s)]. *)
Fixpoint for_each {A S : Type} (body : A -> S -> result S) (xs : list A) (s : S)
  : result S :=
  match xs with
  | [] => Ok s
  | x :: xs' => s' ← body x s; for_each body xs' s'
  end.

(** ** Python strings *)

Definition ascii_eqb (a b : ascii) : bool := Ascii.eqb a b.

(** [s.startswith(p)] *)
Fixpoint startswith (s p : string) : bool :=
  match p, s with
  | EmptyString, _ => true
  | String a p', String b s' => ascii_eqb a b && startswith s' p'
  | String _ _, EmptyString => false
  end.

(** [s.endswith(suf)]: [s] is [suf], or the tail of [s] ends with [suf]. *)
Fixpoint endswith (s suf : string) : bool :=
  String.eqb s suf ||
  match s with
  | EmptyString => false
  | String _ s' => endswith s' suf
  end.

(** [s.endswith((suf1, ..., sufn))] *)
Definition endswith_any (s : string) (sufs : list string) : bool :=
  existsb (endswith s) sufs.

(** [sep.join(parts)] *)
Fixpoint join (sep : string) (parts : list string) : string :=
  match parts with
  | [] => ""
  | [x] => x
  | x :: rest => x +:+ sep +:+ join sep rest
  end.

(** The scan of [s.split(sep)] for a non-empty [sep]: [skip] characters of
    a separator just matched are still to be dropped, [cur] is the piece
    being collected. *)
Fixpoint split_scan (sep s : string) (skip : nat) (cur : string) : list string :=
  match s with
  | EmptyString => [cur]
  | String c s' =>
      match skip with
      | S k => split_scan sep s' k cur
      | O =>
          if startswith s sep
          then cur :: split_scan sep s' (Nat.pred (String.length sep)) ""
          else split_scan sep s' O (cur +:+ String c "")
      end
  end.

(** [s.split(sep)]: an empty separator raises ValueError. *)
Definition split (s sep : string) : result (list string) :=
  match sep with
  | EmptyString => Raise ValueError_empty_separator
  | _ => Ok (split_scan sep s O "")
  end.

(** ASCII [str.lower], used to state case-insensitive comparisons. *)
Definition lower_ascii (c : ascii) : ascii :=
  let n := nat_of_ascii c in
  if (Nat.leb 65 n && Nat.leb n 90)%bool then ascii_of_nat (n + 32) else c.

Fixpoint lower (s : string) : string :=
  match s with
  | EmptyString => EmptyString
  | String c s' => String (lower_ascii c) (lower s')
  end.

(** ** Python list indexing *)

(** The position a Python index denotes in a list of length [n]:
    [0 <= i < n] is itself, [-n <= i < 0] counts from the end. *)
Definition py_pos (n : nat) (i : Z) : option nat :=
  if Z.leb 0 i then
    if Z.ltb i (Z.of_nat n) then Some (Z.to_nat i) else None
  else
    if Z.leb 0 (Z.of_nat n + i) then Some (Z.to_nat (Z.of_nat n + i)) else None.

(** [l[i]] *)
Definition getitem {A} (l : list A) (i : Z) : result A :=
  match py_pos (length l) i with
  | Some k => match l !! k with Some x => Ok x | None => Raise IndexError end
  | None => Raise IndexError
  end.

(** [l[i] = x] *)
Definition setitem {A} (l : list A) (i : Z) (x : A) : result (list A) :=
  match py_pos (length l) i with
  | Some k => Ok (<[k := x]> l)
  | None => Raise IndexError
  end.

(** [l[0:-1]] *)
Definition all_but_last {A} (l : list A) : list A := take (Nat.pred (length l)) l.

(** ** datetime and strptime *)

Record datetime : Type := Datetime {
  year : Z; month : Z; day : Z; hour : Z; minute : Z; second : Z
}.

(** [datetime.strptime] belongs to the Python library, so the functions
    below take it as an argument: [strptime data fmt] is [Some d] when the
    library returns [d] and [None] when it raises ValueError. *)
Definition Strptime : Type := string -> string -> option datetime.

(** A model of [datetime.strptime] for formats made of the numeric directives
    [%Y %m %d %H %M %S] (each at most once), [%%] and literal characters
    other than white space. As in the library, the format becomes a pattern
    that is matched at the start of the data with backtracking over the
    alternatives of each directive, the whole data must be consumed, and
    the fields must form a date that exists. Formats outside this fragment
    are not modelled ([None]). *)
Inductive directive : Type := DY | Dm | Dd | DH | DM | DS.

Inductive fmt_item : Type :=
  | Directive (d : directive)
  | Literal (c : ascii).

Definition directive_of (c : ascii) : option fmt_item :=
  if ascii_eqb c "Y" then Some (Directive DY)
  else if ascii_eqb c "m" then Some (Directive Dm)
  else if ascii_eqb c "d" then Some (Directive Dd)
  else if ascii_eqb c "H" then Some (Directive DH)
  else if ascii_eqb c "M" then Some (Directive DM)
  else if ascii_eqb c "S" then Some (Directive DS)
  else if ascii_eqb c "%" then Some (Literal "%")
  else None.

Definition is_space (c : ascii) : bool :=
  let n := nat_of_ascii c in
  (Nat.eqb n 32 || (Nat.leb 9 n && Nat.leb n 13))%bool.

Fixpoint parse_format (fmt : string) : option (list fmt_item) :=
  match fmt with
  | EmptyString => Some []
  | String c rest =>
      if ascii_eqb c "%" then
        match rest with
        | EmptyString => None
        | String k rest' =>
            match directive_of k, parse_format rest' with
            | Some it, Some its => Some (it :: its)
            | _, _ => None
            end
        end
      else if is_space c then None
      else match parse_format rest with
           | Some its => Some (Literal c :: its)
           | None => None
           end
  end.

Definition directive_eqb (a b : directive) : bool :=
  match a, b with
  | DY, DY | Dm, Dm | Dd, Dd | DH, DH | DM, DM | DS, DS => true
  | _, _ => false
  end.

Fixpoint directives_once (its : list fmt_item) : bool :=
  match its with
  | [] => true
  | Literal _ :: rest => directives_once rest
  | Directive d :: rest =>
      negb (existsb (fun it => match it with
                               | Directive d' => directive_eqb d d'
                               | Literal _ => false
                               end) rest)
      && directives_once rest
  end.

Definition digit (c : ascii) : option Z :=
  let n := nat_of_ascii c in
  if (Nat.leb 48 n && Nat.leb n 57)%bool then Some (Z.of_nat n - 48) else None.

(** The alternatives of two characters, then of one, of a directive. *)
Definition two_then_one (two : Z -> Z -> bool) (one : Z -> bool) (s : string)
  : list (Z * string) :=
  match s with
  | EmptyString => []
  | String a s1 =>
      match digit a with
      | None => []
      | Some x =>
          match s1 with
          | String b s2 =>
              match digit b with
              | Some y => if two x y then [(10 * x + y, s2)] else []
              | None => []
              end
          | EmptyString => []
          end ++ (if one x then [(x, s1)] else [])
      end
  end.

Definition candidates (d : directive) (s : string) : list (Z * string) :=
  match d with
  | DY =>                                             (* \d\d\d\d *)
      match s with
      | String a (String b (String c (String e rest))) =>
          match digit a, digit b, digit c, digit e with
          | Some x, Some y, Some z, Some w =>
              [(1000 * x + 100 * y + 10 * z + w, rest)]
          | _, _, _, _ => []
          end
      | _ => []
      end
  | Dm =>                                             (* 1[0-2]|0[1-9]|[1-9] *)
      two_then_one (fun x y => (x =? 1) && (y <=? 2) || (x =? 0) && (1 <=? y))%bool
                   (fun x => 1 <=? x) s
  | Dd =>                                 (* 3[0-1]|[1-2]\d|0[1-9]|[1-9]| [1-9] *)
      two_then_one (fun x y => (x =? 3) && (y <=? 1) || (1 <=? x) && (x <=? 2)
                               || (x =? 0) && (1 <=? y))%bool
                   (fun x => 1 <=? x) s
      ++ match s with
         | String sp (String b rest) =>
             if ascii_eqb sp " " then
               match digit b with
               | Some y => if 1 <=? y then [(y, rest)] else []
               | None => []
               end
             else []
         | _ => []
         end
  | DH =>                                             (* 2[0-3]|[0-1]\d|\d *)
      two_then_one (fun x y => (x =? 2) && (y <=? 3) || (x <=? 1))%bool
                   (fun _ => true) s
  | DM =>                                             (* [0-5]\d|\d *)
      two_then_one (fun x _ => x <=? 5) (fun _ => true) s
  | DS =>                                             (* 6[0-1]|[0-5]\d|\d *)
      two_then_one (fun x y => (x =? 6) && (y <=? 1) || (x <=? 5))%bool
                   (fun _ => true) s
  end.

Definition set_field (d : directive) (v : Z) (t : datetime) : datetime :=
  match d with
  | DY => Datetime v (month t) (day t) (hour t) (minute t) (second t)
  | Dm => Datetime (year t) v (day t) (hour t) (minute t) (second t)
  | Dd => Datetime (year t) (month t) v (hour t) (minute t) (second t)
  | DH => Datetime (year t) (month t) (day t) v (minute t) (second t)
  | DM => Datetime (year t) (month t) (day t) (hour t) v (second t)
  | DS => Datetime (year t) (month t) (day t) (hour t) (minute t) v
  end.

Fixpoint first_some {A} (l : list (option A)) : option A :=
  match l with
  | [] => None
  | Some a :: _ => Some a
  | None :: rest => first_some rest
  end.

Fixpoint match_items (its : list fmt_item) (s : string) (t : datetime)
  : option (datetime * string) :=
  match its with
  | [] => Some (t, s)
  | Literal c :: rest =>
      match s with
      | String c' s' =>
          if ascii_eqb (lower_ascii c) (lower_ascii c') then match_items rest s' t
          else None
      | EmptyString => None
      end
  | Directive d :: rest =>
      first_some (map (fun '(v, s') => match_items rest s' (set_field d v t))
                      (candidates d s))
  end.

Definition is_leap (y : Z) : bool :=
  ((y mod 4 =? 0) && (negb (y mod 100 =? 0) || (y mod 400 =? 0)))%bool.

Definition days_in_month (y m : Z) : Z :=
  if m =? 2 then (if is_leap y then 29 else 28)
  else if ((m =? 4) || (m =? 6) || (m =? 9) || (m =? 11))%bool then 30
  else 31.

(** The checks of the [datetime] constructor on what the pattern can yield. *)
Definition valid_datetime (t : datetime) : bool :=
  ((1 <=? year t) && (1 <=? day t) && (day t <=? days_in_month (year t) (month t))
   && (second t <=? 59))%bool.

Definition numeric_strptime : Strptime := fun data fmt =>
  match parse_format fmt with
  | Some its =>
      if directives_once its then
        match match_items its data (Datetime 1900 1 1 0 0 0) with
        | Some (t, EmptyString) => if valid_datetime t then Some t else None
        | _ => None
        end
      else None
  | None => None
  end.

(** ** Data model *)

(** [sensing_time_position] and [band_position]: the dictionaries with the
    keys "path", "delimiter", "position" (and "format"). *)
Record SensingTimePosition : Type := {
  st_path : Z; st_delimiter : string; st_position : Z; st_format : string
}.

Record BandPosition : Type := {
  bp_path : Z; bp_delimiter : string; bp_position : Z
}.

(** A value stored in a band descriptor. *)
Inductive pyval : Type :=
  | VStr (s : string)
  | VInt (n : Z).

#[global] Instance pyval_eq_dec : EqDecision pyval.
Proof. solve_decision. Defined.

#[global] Instance pyval_countable : Countable pyval.
Proof.
  refine (inj_countable'
            (fun v => match v with VStr s => inl s | VInt n => inr n end)
            (fun x => match x with inl s => VStr s | inr n => VInt n end) _).
  intros []; reflexivity.
Defined.

Record ByocCollectionBand : Type := {
  source : pyval; band_index : Z; bit_depth : pyval; sample_format : pyval
}.

Record ByocCollectionAdditionalData : Type := {
  bands : option (gmap pyval ByocCollectionBand);
  other_data : option (gmap string string)
}.

Record ByocCollection : Type := {
  name : string;
  s3_bucket : string;
  additional_data : option ByocCollectionAdditionalData
}.

Record ByocTile : Type := { path : string; sensing_time : datetime }.

(** A tile as [iter_tiles] yields it: "path", "status" and, optionally,
    "additionalData". *)
Record ExistingTile : Type := {
  tile_path : string;
  tile_status : string;
  tile_additionalData : option (gmap string string)
}.

(** The catalog client: what [iter_tiles] answers for a collection, and the
    creation requests sent so far, oldest first. *)
Inductive request : Type :=
  | CreateCollection (c : ByocCollection)
  | CreateTile (coll : option ByocCollection) (t : ByocTile).

Record SentinelHubBYOC : Type := {
  catalog : option ByocCollection -> list ExistingTile;
  requests : list request
}.

Definition iter_tiles (c : SentinelHubBYOC) (coll : option ByocCollection)
  : list ExistingTile := catalog c coll.

Definition create_tile (c : SentinelHubBYOC) (coll : option ByocCollection)
  (t : ByocTile) : SentinelHubBYOC :=
  {| catalog := catalog c; requests := requests c ++ [CreateTile coll t] |}.

Definition create_collection (c : SentinelHubBYOC) (new_collection : ByocCollection)
  : SentinelHubBYOC * ByocCollection :=
  ({| catalog := catalog c;
      requests := requests c ++ [CreateCollection new_collection] |},
   new_collection).

Record Ingestor : Type := {
  byoc_client : SentinelHubBYOC;
  byoc_collection : option ByocCollection;
  file_list : list string
}.

Record TileListParameters : Type := {
  bucket_url : string;
  base_path : string;
  bucket_name : string;
  creodias_username : string;
  creodias_password : string
}.

(** ** build_byoc_tiles *)

(** Lines 214-217: the sub-token that holds the date. *)
Definition date_token (stp : SensingTimePosition) (tile_path : string)
  : result string :=
  segments ← split tile_path "/";
  folder_name ← getitem segments (st_path stp);
  parts ← split folder_name (st_delimiter stp);
  getitem parts (st_position stp).

(** Lines 214-220. *)
Definition sensing_time_of (strptime : Strptime) (stp : SensingTimePosition)
  (tile_path : string) : result datetime :=
  datetime_str ← date_token stp tile_path;
  match strptime datetime_str (st_format stp) with
  | Some datetime_obj => Ok datetime_obj
  | None => Raise (ValueError_time_data datetime_str (st_format stp))
  end.

(** Lines 221-224. *)
Definition new_file_name_of (bp : BandPosition) (tile_path : string)
  : result string :=
  segments ← split tile_path "/";
  file_name ← getitem segments (bp_path bp);
  split_file_name ← split file_name (bp_delimiter bp);
  split_file_name' ← setitem split_file_name (bp_position bp) "(BAND)";
  Ok (join (bp_delimiter bp) split_file_name').

(** Lines 221-226. *)
Definition byoc_path_of (bp : BandPosition) (tile_path : string) : result string :=
  new_file_name ← new_file_name_of bp tile_path;
  segments ← split tile_path "/";
  let parent_path := all_but_last segments in
  Ok (join "/" parent_path +:+ "/" +:+ new_file_name).

(** The extraction part of the loop body, lines 214-226. *)
Definition derive (strptime : Strptime) (stp : SensingTimePosition)
  (bp : BandPosition) (tile_path : string) : result (string * datetime) :=
  datetime_obj ← sensing_time_of strptime stp tile_path;
  byoc_path ← byoc_path_of bp tile_path;
  Ok (byoc_path, datetime_obj).

(** [p in [x[0] for x in byoc_tiles]] *)
Definition path_in {B} (p : string) (paths : list (string * B)) : bool :=
  existsb (String.eqb p) (map fst paths).

(** The loop body, lines 213-229. *)
Definition build_step (strptime : Strptime) (stp : SensingTimePosition)
  (bp : BandPosition) (tile_path : string) (byoc_tiles : list (string * datetime))
  : result (list (string * datetime)) :=
  tile ← derive strptime stp bp tile_path;
  Ok (if path_in (fst tile) byoc_tiles then byoc_tiles else byoc_tiles ++ [tile]).

Definition build_byoc_tiles (strptime : Strptime) (self : Ingestor)
  (stp : SensingTimePosition) (bp : BandPosition)
  : result (list (string * datetime)) :=
  for_each (build_step strptime stp bp) (file_list self) [].

(** ** ingest_tiles_to_collection *)

(** [x.path] for an item [x] of [iter_tiles]. The items are the JSON
    mappings that [collection_tile_report] reads by key ([tile["status"]],
    ["additionalData" in tile], [tile['path']]); a mapping has no attribute
    [path], so the read raises AttributeError. *)
Definition getattr_path (x : ExistingTile) : result string :=
  Raise (AttributeError "path").

(** [[x.path for x in existing_tiles]] *)
Fixpoint existing_paths (existing_tiles : list ExistingTile) : result (list string) :=
  match existing_tiles with
  | [] => Ok []
  | x :: rest =>
      p ← getattr_path x;
      paths ← existing_paths rest;
      Ok (p :: paths)
  end.

(** Lines 256-259. The list of existing paths is built anew for every tile;
    when that raises, the requests sent so far stay sent. *)
Fixpoint submit_loop (coll : option ByocCollection)
  (existing_tiles : list ExistingTile) (byoc_tiles : list (string * datetime))
  (client : SentinelHubBYOC) : SentinelHubBYOC * result unit :=
  match byoc_tiles with
  | [] => (client, Ok tt)
  | tile :: rest =>
      let byoc_tile := {| path := fst tile; sensing_time := snd tile |} in
      match existing_paths existing_tiles with
      | Raise e => (client, Raise e)
      | Ok paths =>
          submit_loop coll existing_tiles rest
            (if existsb (String.eqb (path byoc_tile)) paths then client
             else create_tile client coll byoc_tile)
      end
  end.

Definition ingest_tiles_to_collection (strptime : Strptime) (self : Ingestor)
  (stp : SensingTimePosition) (bp : BandPosition) : Ingestor * result unit :=
  match build_byoc_tiles strptime self stp bp with
  | Raise e => (self, Raise e)
  | Ok byoc_tiles =>
      let existing_tiles := iter_tiles (byoc_client self) (byoc_collection self) in
      let '(client, outcome) :=
        submit_loop (byoc_collection self) existing_tiles byoc_tiles
                    (byoc_client self) in
      ({| byoc_client := client;
          byoc_collection := byoc_collection self;
          file_list := file_list self |}, outcome)
  end.

(** ** collection_tile_report *)

(** [report[key] += 1] *)
Definition increment (key : string) (report : gmap string Z) : gmap string Z :=
  <[key := report !!! key + 1]> report.

(** Lines 281-287: the entry a FAILED tile adds to [failed]. *)
Definition failure_reason (tile : ExistingTile) : string :=
  match tile_additionalData tile with
  | Some additional =>
      match additional !! "failedIngestionCause" with
      | Some cause => cause
      | None => "Unknown failure for tile " +:+ tile_path tile
      end
  | None => "Unknown failure for tile " +:+ tile_path tile
  end.

(** The loop body, lines 276-289. *)
Definition report_step (acc : gmap string Z * list string) (tile : ExistingTile)
  : gmap string Z * list string :=
  let '(report, failed) := acc in
  if String.eqb (tile_status tile) "INGESTED" then (increment "Ingested" report, failed)
  else if String.eqb (tile_status tile) "FAILED" then
    (increment "Failed" report, failed ++ [failure_reason tile])
  else (increment "Pending" report, failed).

Definition initial_report (tiles : list ExistingTile) : gmap string Z :=
  <["Ingested" := 0]> (<["Failed" := 0]> (<["Pending" := 0]>
    (<["Total" := Z.of_nat (length tiles)]> ∅))).

Definition tile_report (tiles : list ExistingTile) : gmap string Z * list string :=
  fold_left report_step tiles (initial_report tiles, []).

Definition collection_tile_report (self : Ingestor) : gmap string Z * list string :=
  tile_report (iter_tiles (byoc_client self) (byoc_collection self)).

(** ** list_tiles *)

Record S3Object : Type := { Key : string }.

(** A page of a listing: [Some contents] when "Contents" is in the page. *)
Definition Page : Type := option (list S3Object).

(** What iterating [paginator.paginate(Bucket=b, Prefix=p)] does: it yields
    [pages], then either ends or raises [listing_error]. *)
Record Listing : Type := {
  pages : list Page;
  listing_error : option exn
}.

Definition Paginator : Type := string -> string -> Listing.

(** [for page in listing: s = body(page, s)] *)
Definition for_pages {S : Type} (listing : Listing) (body : Page -> S -> result S)
  (s : S) : result S :=
  s' ← for_each body (pages listing) s;
  match listing_error listing with
  | Some e => Raise e
  | None => Ok s'
  end.

Definition tiff_suffixes : list string := [".tiff"; ".tif"; ".TIF"; ".TIFF"].

(** Lines 177-180. *)
Definition scan_subobj (subobj : S3Object) (tiff_files : list string)
  : result (list string) :=
  Ok (if endswith_any (Key subobj) tiff_suffixes
      then tiff_files ++ [Key subobj] else tiff_files).

(** Lines 175-180. *)
Definition scan_subpage (subpages : Page) (tiff_files : list string)
  : result (list string) :=
  match subpages with
  | Some contents => for_each scan_subobj contents tiff_files
  | None => Ok tiff_files
  end.

(** Lines 172-180. *)
Definition scan_obj (paginate : Paginator) (params : TileListParameters)
  (obj : S3Object) (tiff_files : list string) : result (list string) :=
  for_pages (paginate (bucket_name params) (Key obj)) scan_subpage tiff_files.

(** Lines 169-180. *)
Definition scan_page (paginate : Paginator) (params : TileListParameters)
  (page : Page) (tiff_files : list string) : result (list string) :=
  match page with
  | Some contents => for_each (scan_obj paginate params) contents tiff_files
  | None => Ok tiff_files
  end.

Definition list_tiles (paginate : Paginator) (self : Ingestor)
  (params : TileListParameters) : Ingestor * result (list string) :=
  match for_pages (paginate (bucket_name params) (base_path params))
                  (scan_page paginate params) [] with
  | Ok tiff_files =>
      ({| byoc_client := byoc_client self;
          byoc_collection := byoc_collection self;
          file_list := tiff_files |}, Ok tiff_files)
  | Raise e => (self, Raise e)
  end.

(** ** create_byoc_collection *)

Definition required_fields : list string :=
  ["name"; "source"; "bit_depth"; "sample_format"].

(** [[field for field in required_fields if field not in band]] *)
Definition missing_fields_of (band : gmap string pyval) : list string :=
  List.filter (fun field => match band !! field with
                            | None => true
                            | Some _ => false
                            end) required_fields.

(** [d[key]] *)
Definition dict_get (d : gmap string pyval) (key : string) : result pyval :=
  match d !! key with
  | Some v => Ok v
  | None => Raise (KeyError key)
  end.

(** The loop body, lines 100-113. *)
Definition band_step (band : gmap string pyval)
  (band_parameters : gmap pyval ByocCollectionBand)
  : result (gmap pyval ByocCollectionBand) :=
  let missing_fields := missing_fields_of band in
  match missing_fields with
  | _ :: _ =>
      Raise (ValueError_message
               ("Each band must contain " +:+ join ", " missing_fields +:+ " fields"))
  | [] =>
      band_name ← dict_get band "name";
      band_source ← dict_get band "source";
      band_depth ← dict_get band "bit_depth";
      band_format ← dict_get band "sample_format";
      Ok (<[band_name := {| source := band_source; band_index := 1;
                            bit_depth := band_depth;
                            sample_format := band_format |}]> band_parameters)
  end.

(** Lines 92-128. *)
Definition band_config_of (storage_id : option string)
  (band_information : option (list (gmap string pyval)))
  : result (option ByocCollectionAdditionalData) :=
  match band_information with
  | Some descriptors =>
      band_parameters ← for_each band_step descriptors ∅;
      match storage_id with
      | Some (String _ _ as sid) =>
          Ok (Some {| bands := Some band_parameters;
                      other_data := Some {["storageIdentifier" := sid]} |})
      | _ => Ok (Some {| bands := Some band_parameters; other_data := None |})
      end
  | None =>
      match storage_id with
      | Some (String _ _ as sid) =>
          Ok (Some {| bands := None;
                      other_data := Some {["storageIdentifier" := sid]} |})
      | _ => Ok None
      end
  end.

Definition create_byoc_collection (self : Ingestor)
  (collection_name s3_bucket_name : string) (storage_id : option string)
  (band_information : option (list (gmap string pyval)))
  : Ingestor * result unit :=
  match band_config_of storage_id band_information with
  | Raise e => (self, Raise e)
  | Ok band_config =>
      let new_collection := {| name := collection_name;
                               s3_bucket := s3_bucket_name;
                               additional_data := band_config |} in
      let '(client, created) := create_collection (byoc_client self) new_collection in
      ({| byoc_client := client;
          byoc_collection := Some created;
          file_list := file_list self |}, Ok tt)
  end.

(** ** Vocabulary of the statements *)

Definition is_ingested (tile : ExistingTile) : bool :=
  String.eqb (tile_status tile) "INGESTED".

Definition is_failed (tile : ExistingTile) : bool :=
  String.eqb (tile_status tile) "FAILED".

Definition is_pending (tile : ExistingTile) : bool :=
  negb (is_ingested tile) && negb (is_failed tile).

Definition count {A} (p : A -> bool) (l : list A) : Z :=
  Z.of_nat (length (List.filter p l)).

(** The creation requests for the built tiles, one per tile, in order. *)
Definition tile_requests (coll : option ByocCollection)
  (byoc_tiles : list (string * datetime)) : list request :=
  map (fun tile => CreateTile coll {| path := fst tile; sensing_time := snd tile |})
      byoc_tiles.

(** [derive] on each key in turn; the first failure is the failure of all. *)
Fixpoint derive_all (strptime : Strptime) (stp : SensingTimePosition)
  (bp : BandPosition) (keys : list string) : result (list (string * datetime)) :=
  match keys with
  | [] => Ok []
  | key :: rest =>
      tile ← derive strptime stp bp key;
      tiles ← derive_all strptime stp bp rest;
      Ok (tile :: tiles)
  end.

(** The accumulating part of the loop of [build_byoc_tiles], lines 228-229,
    run on the tiles derived from the keys. *)
Definition dedup_loop (derived acc : list (string * datetime))
  : list (string * datetime) :=
  fold_left (fun acc tile => if path_in (fst tile) acc then acc else acc ++ [tile])
            derived acc.

(** The tiles of [l] whose path is neither in [seen] nor carried by an
    earlier tile of [l], in the order of [l]. *)
Fixpoint first_occurrences {B} (seen : list string) (l : list (string * B))
  : list (string * B) :=
  match l with
  | [] => []
  | tile :: rest =>
      if existsb (String.eqb (fst tile)) seen then first_occurrences seen rest
      else tile :: first_occurrences (seen ++ [fst tile]) rest
  end.

(** [tile] is at position [i] of [l] and no earlier tile of [l] has its path. *)
Definition first_with_path {B} (l : list (string * B)) (i : nat) (tile : string * B)
  : Prop :=
  l !! i = Some tile /\
  forall j other, (j < i)%nat -> l !! j = Some other -> fst other <> fst tile.

(** The configured file-name index selects the last segment of [key]. *)
Definition selects_last_segment (bp : BandPosition) (key : string) : Prop :=
  exists segments,
    split key "/" = Ok segments /\
    py_pos (length segments) (bp_path bp) = Some (Nat.pred (length segments)).

(** [key1] and [key2] differ at most in the band token: their segments agree
    once the configured segment is blanked, and the pieces of that segment
    agree once the configured piece is blanked. *)
Definition differ_only_in_band (bp : BandPosition) (key1 key2 : string) : bool :=
  match split key1 "/", split key2 "/" with
  | Ok segments1, Ok segments2 =>
      match py_pos (length segments1) (bp_path bp),
            getitem segments1 (bp_path bp), getitem segments2 (bp_path bp) with
      | Some i, Ok file_name1, Ok file_name2 =>
          bool_decide (<[i := ""]> segments1 = <[i := ""]> segments2)
          && match split file_name1 (bp_delimiter bp),
                   split file_name2 (bp_delimiter bp) with
             | Ok parts1, Ok parts2 =>
                 match py_pos (length parts1) (bp_position bp) with
                 | Some j => bool_decide (<[j := ""]> parts1 = <[j := ""]> parts2)
                 | None => false
                 end
             | _, _ => false
             end
      | _, _, _ => false
      end
  | _, _ => false
  end.

(** The canonical path in the words of the specification: the segments
    before the one the configured index selects as file name, joined by "/",
    then "/" and the file name with the band token replaced. *)
Definition canonical_path_spec (bp : BandPosition) (tile_path : string)
  : result string :=
  segments ← split tile_path "/";
  match py_pos (length segments) (bp_path bp) with
  | None => Raise IndexError
  | Some k =>
      new_file_name ← new_file_name_of bp tile_path;
      Ok (join "/" (take k segments) +:+ "/" +:+ new_file_name)
  end.

(** The suffix test in the words of the specification: ".tif" or ".tiff",
    whatever the case of the letters. *)
Definition tiff_suffix_any_case (key : string) : bool :=
  endswith (lower key) ".tif" || endswith (lower key) ".tiff".

(** The keys a page and a listing return. *)
Definition page_keys (page : Page) : list string :=
  match page with
  | Some contents => map Key contents
  | None => []
  end.

Definition listing_keys (listing : Listing) : list string :=
  flat_map page_keys (pages listing).

(** The keys the remote store returns to [list_tiles]: those of the listing
    under each key of the listing under the base path. *)
Definition returned_keys (paginate : Paginator) (params : TileListParameters)
  : list string :=
  flat_map (fun key => listing_keys (paginate (bucket_name params) key))
           (listing_keys (paginate (bucket_name params) (base_path params))).

Definition no_error (listing : Listing) : bool :=
  match listing_error listing with
  | None => true
  | Some _ => false
  end.

(** No listing that [list_tiles] iterates raises. *)
Definition listings_succeed (paginate : Paginator) (params : TileListParameters)
  : bool :=
  forallb (fun key => no_error (paginate (bucket_name params) key))
          (listing_keys (paginate (bucket_name params) (base_path params)))
  && no_error (paginate (bucket_name params) (base_path params)).

Definition is_tiff (key : string) : bool := endswith_any key tiff_suffixes.

(** [needle] occurs in [hay]. *)
Definition occurs_in (needle hay : string) : Prop :=
  exists before after, hay = before +:+ needle +:+ after.

(** ** Concrete inputs used in the examples *)

Definition complete_band : gmap string pyval :=
  <["name" := VStr "B04"]> (<["source" := VStr "B04"]>
    (<["bit_depth" := VInt 16]> (<["sample_format" := VStr "UINT"]> ∅))).

Definition band_without_bit_depth : gmap string pyval :=
  <["name" := VStr "B08"]> (<["source" := VStr "B08"]>
    (<["sample_format" := VStr "UINT"]> ∅)).

Definition page_of (keys : list string) : Page := Some (map Build_S3Object keys).

(** A bucket with two keys under "S2/": every listing returns the keys that
    start with the prefix, on one page. *)
Definition two_key_bucket : Paginator := fun _ prefix =>
  {| pages := [page_of (List.filter (fun key => startswith key prefix)
                                    ["S2/20230615/B04_10m.tif"; "S2/20230615/notes.Tif"])];
     listing_error := None |}.

(** The same bucket, whose listings raise after their first page when the
    prefix is a key ending in "notes.Tif". *)
Definition failing_bucket : Paginator := fun bucket prefix =>
  {| pages := pages (two_key_bucket bucket prefix);
     listing_error := if endswith prefix "notes.Tif"
                      then Some (ClientError "RequestTimeout") else None |}.

Definition example_params : TileListParameters :=
  {| bucket_url := "eodata.dataspace.copernicus.eu"; base_path := "S2/";
     bucket_name := "bucket"; creodias_username := "user";
     creodias_password := "secret" |}.

Definition no_catalog : SentinelHubBYOC :=
  {| catalog := fun _ => []; requests := [] |}.

Definition ingestor_with (client : SentinelHubBYOC) (files : list string) : Ingestor :=
  {| byoc_client := client; byoc_collection := None; file_list := files |}.

(** A created collection, a catalog that holds one tile of it, and an
    Ingestor with that collection stored. *)
Definition s2_collection : ByocCollection :=
  {| name := "S2"; s3_bucket := "bucket"; additional_data := None |}.

Definition catalog_with (tiles : list ExistingTile) : SentinelHubBYOC :=
  {| catalog := fun _ => tiles; requests := [] |}.

Definition tile_of_15_june : ExistingTile :=
  {| tile_path := "S2/20230615/(BAND)_10m.tif"; tile_status := "INGESTED";
     tile_additionalData := None |}.

Definition ingestor_on (client : SentinelHubBYOC) (files : list string) : Ingestor :=
  {| byoc_client := client; byoc_collection := Some s2_collection;
     file_list := files |}.

(** Date in segment 1, band token first in the file name. *)
Definition date_folder (delimiter : string) : SensingTimePosition :=
  {| st_path := 1; st_delimiter := delimiter; st_position := 0; st_format := "%Y%m%d" |}.

Definition band_first_in_last_segment : BandPosition :=
  {| bp_path := -1; bp_delimiter := "_"; bp_position := 0 |}.

(** Date in the file name, band token first in segment 1. *)
Definition date_in_file_name : SensingTimePosition :=
  {| st_path := 2; st_delimiter := "."; st_position := 0; st_format := "%Y%m%d" |}.

Definition band_first_in_folder : BandPosition :=
  {| bp_path := 1; bp_delimiter := "_"; bp_position := 0 |}.

(** ** The rest of the module *)

(** [Ingestor.__init__]: the client built from the configuration, no
    collection, no files. The configuration decides which catalog the
    client talks to; no request has been sent. *)
Definition initialise_byoc_client (config : option ByocCollection -> list ExistingTile)
  : SentinelHubBYOC :=
  {| catalog := config; requests := [] |}.

Definition Ingestor_init (config : option ByocCollection -> list ExistingTile)
  : Ingestor :=
  {| byoc_client := initialise_byoc_client config;
     byoc_collection := None;
     file_list := [] |}.

(** [s] without its first [k] characters. *)
Fixpoint drop_chars (k : nat) (s : string) : string :=
  match k, s with
  | O, _ => s
  | S _, EmptyString => EmptyString
  | S k', String _ s' => drop_chars k' s'
  end.

(** [c in s] *)
Fixpoint contains_char (c : ascii) (s : string) : bool :=
  match s with
  | EmptyString => false
  | String c' s' => ascii_eqb c c' || contains_char c s'
  end.

(** How many times [x] is in [l]. *)
Definition occurrences (x : string) (l : list string) : nat :=
  length (List.filter (String.eqb x) l).

(** An object store that answers every listing in full: the keys of
    [objects] that start with the prefix, in their order, whatever the
    paging, and no error. *)
Definition lists_by_prefix (paginate : Paginator) (bucket : string)
  (objects : list string) : Prop :=
  forall prefix,
    listing_keys (paginate bucket prefix)
    = List.filter (fun key => startswith key prefix) objects
    /\ listing_error (paginate bucket prefix) = None.

(** The store with the keys [objects], [size] keys to a page. *)
Fixpoint paged (size : nat) (fuel : nat) (keys : list string) : list Page :=
  match fuel, keys with
  | _, [] => []
  | O, _ => [page_of keys]
  | S fuel', _ => page_of (take (S size) keys) :: paged size fuel' (drop (S size) keys)
  end.

Definition bucket_of (objects : list string) (size : nat) : Paginator :=
  fun _ prefix =>
    let keys := List.filter (fun key => startswith key prefix) objects in
    {| pages := paged size (length keys) keys; listing_error := None |}.

(** The band a descriptor with the four required fields stands for, under
    its name. *)
Definition band_entry (band : gmap string pyval) : option (pyval * ByocCollectionBand) :=
  match band !! "name", band !! "source", band !! "bit_depth",
        band !! "sample_format" with
  | Some band_name, Some band_source, Some band_depth, Some band_format =>
      Some (band_name, {| source := band_source; band_index := 1;
                          bit_depth := band_depth; sample_format := band_format |})
  | _, _, _, _ => None
  end.


(** The report dictionary with the four counters. *)
Definition report_of (ingested failed pending total : Z) : gmap string Z :=
  <["Ingested" := ingested]> (<["Failed" := failed]> (<["Pending" := pending]>
    (<["Total" := total]> ∅))).

(** The bands dictionary after the descriptors, each stored under its name. *)
Definition bands_of (descriptors : list (gmap string pyval))
  (band_parameters : gmap pyval ByocCollectionBand) : gmap pyval ByocCollectionBand :=
  fold_left (fun parameters band =>
               match band_entry band with
               | Some (band_name, built) => <[band_name := built]> parameters
               | None => parameters
               end) descriptors band_parameters.

(** A store whose listings have a page without "Contents" and a page with
    empty "Contents". *)
Definition empty_bucket : Paginator := fun _ _ =>
  {| pages := [None; Some []]; listing_error := None |}.

(** A descriptor like [complete_band] with a key the code does not read. *)
Definition band_with_extra_key : gmap string pyval :=
  <["band_index" := VInt 5]> complete_band.

(** * Proofs *)

Example split_plain : split "S2/20230615/B04_10m.tif" "/" = Ok ["S2"; "20230615"; "B04_10m.tif"].
Proof. reflexivity. Qed.
Example split_consecutive : split "a,,b," "," = Ok ["a"; ""; "b"; ""].
Proof. reflexivity. Qed.
Example split_long_sep : split "a--b---c" "--" = Ok ["a"; "b"; "-c"].
Proof. reflexivity. Qed.
Example split_empty_string : split "" "_" = Ok [""].
Proof. reflexivity. Qed.
Example split_overlapping : split "aaa" "aa" = Ok [""; "a"].
Proof. reflexivity. Qed.
Example split_empty_separator : split "20230615" "" = Raise ValueError_empty_separator.
Proof. reflexivity. Qed.
Example join_parts : join "_" ["(BAND)"; "10m.tif"] = "(BAND)_10m.tif".
Proof. reflexivity. Qed.
Example setitem_negative : setitem ["a"; "b"; "c"] (-3) "x" = Ok ["x"; "b"; "c"].
Proof. reflexivity. Qed.
Example setitem_out : setitem ["a"; "b"; "c"] (-4) "x" = Raise IndexError.
Proof. reflexivity. Qed.
Example endswith_suffix : endswith "S2/B04.TIF" ".TIF" = true /\ endswith "S2/B04.Tif" ".TIF" = false.
Proof. split; reflexivity. Qed.
Example getitem_negative : getitem ["a"; "b"; "c"] (-1) = Ok "c".
Proof. reflexivity. Qed.
Example getitem_out : getitem ["a"; "b"; "c"] 3 = Raise IndexError.
Proof. reflexivity. Qed.
Example strptime_ymd : numeric_strptime "20230615" "%Y%m%d" = Some (Datetime 2023 6 15 0 0 0).
Proof. reflexivity. Qed.
Example strptime_backtrack : numeric_strptime "2023615" "%Y%m%d" = Some (Datetime 2023 6 15 0 0 0).
Proof. reflexivity. Qed.
Example strptime_dashes : numeric_strptime "2024-02-29T23:59" "%Y-%m-%dT%H:%M" = Some (Datetime 2024 2 29 23 59 0).
Proof. reflexivity. Qed.
Example strptime_no_such_day : numeric_strptime "20230229" "%Y%m%d" = None.
Proof. reflexivity. Qed.
Example strptime_letters : numeric_strptime "abcd" "%Y%m%d" = None.
Proof. reflexivity. Qed.
Example strptime_remains : numeric_strptime "202306150" "%Y%m%d" = None.
Proof. reflexivity. Qed.

(** ** collection_tile_report *)

(** Four tiles: one ingested, two failed (one without a recorded cause), one
    still waiting. *)
Example report_of_four_tiles :
  tile_report
    [ {| tile_path := "a"; tile_status := "INGESTED"; tile_additionalData := None |};
      {| tile_path := "b"; tile_status := "FAILED";
         tile_additionalData := Some {[ "failedIngestionCause" := "not a COG" ]} |};
      {| tile_path := "c"; tile_status := "FAILED"; tile_additionalData := Some ∅ |};
      {| tile_path := "d"; tile_status := "WAITING"; tile_additionalData := None |} ]
  = (<["Ingested" := 1]> (<["Failed" := 2]> (<["Pending" := 1]> (<["Total" := 4]> ∅))),
     ["not a COG"; "Unknown failure for tile c"]).
Proof. vm_compute. reflexivity. Qed.

Section Report.

Implicit Types (report : gmap string Z) (failed : list string).

Lemma increment_same key report :
  increment key report !!! key = report !!! key + 1.
Proof. unfold increment. apply lookup_total_insert_eq. Qed.

Lemma increment_other key key' report :
  key <> key' -> increment key report !!! key' = report !!! key'.
Proof. intros Hne. unfold increment. by apply lookup_total_insert_ne. Qed.

Lemma count_cons {A} (p : A -> bool) x l :
  count p (x :: l) = (if p x then 1 else 0) + count p l.
Proof. unfold count. simpl. destruct (p x); simpl; lia. Qed.

Lemma count_partition (tiles : list ExistingTile) :
  count is_ingested tiles + count is_failed tiles + count is_pending tiles
  = Z.of_nat (length tiles).
Proof.
  induction tiles as [|t tiles IH]; [reflexivity|].
  rewrite !count_cons. unfold is_pending at 1.
  cbn [length]. destruct (is_ingested t) eqn:Hi, (is_failed t) eqn:Hf; simpl; try lia.
  unfold is_ingested, is_failed in *.
  apply String.eqb_eq in Hi. apply String.eqb_eq in Hf. congruence.
Qed.

(** What the loop adds to any starting state. *)
Lemma report_loop tiles : forall report failed,
  let out := fold_left report_step tiles (report, failed) in
  out.1 !!! "Ingested" = report !!! "Ingested" + count is_ingested tiles
  /\ out.1 !!! "Failed" = report !!! "Failed" + count is_failed tiles
  /\ out.1 !!! "Pending" = report !!! "Pending" + count is_pending tiles
  /\ out.1 !!! "Total" = report !!! "Total"
  /\ out.2 = failed ++ map failure_reason (List.filter is_failed tiles).
Proof.
  induction tiles as [|t tiles IH]; intros report failed; cbn zeta.
  - cbn. unfold count. cbn. rewrite app_nil_r. repeat split; lia.
  - cbn [fold_left]. rewrite !count_cons. unfold is_pending at 1.
    unfold report_step at 2 4 6 8 10.
    fold (is_ingested t). fold (is_failed t).
    destruct (is_ingested t) eqn:Hi.
    + assert (is_failed t = false) as Hf.
      { unfold is_ingested, is_failed in *. apply String.eqb_eq in Hi.
        rewrite Hi. reflexivity. }
      specialize (IH (increment "Ingested" report) failed). cbn zeta in IH.
      destruct IH as (H1 & H2 & H3 & H4 & H5).
      rewrite H1, H2, H3, H4, H5. cbn [List.filter]. rewrite Hf.
      rewrite increment_same, !increment_other by discriminate.
      cbn. repeat split; lia.
    + destruct (is_failed t) eqn:Hf.
      * specialize (IH (increment "Failed" report) (failed ++ [failure_reason t])).
        cbn zeta in IH. destruct IH as (H1 & H2 & H3 & H4 & H5).
        rewrite H1, H2, H3, H4, H5. cbn [List.filter]. rewrite Hf.
        rewrite increment_same, !increment_other by discriminate.
        cbn [map]. rewrite <- app_assoc. cbn. repeat split; lia.
      * specialize (IH (increment "Pending" report) failed). cbn zeta in IH.
        destruct IH as (H1 & H2 & H3 & H4 & H5).
        rewrite H1, H2, H3, H4, H5. cbn [List.filter]. rewrite Hf.
        rewrite increment_same, !increment_other by discriminate.
        cbn. repeat split; lia.
Qed.

Lemma initial_report_values tiles :
  initial_report tiles !!! "Ingested" = 0
  /\ initial_report tiles !!! "Failed" = 0
  /\ initial_report tiles !!! "Pending" = 0
  /\ initial_report tiles !!! "Total" = Z.of_nat (length tiles).
Proof.
  unfold initial_report. repeat apply conj; reflexivity.
Qed.

Lemma tile_report_spec tiles :
  (tile_report tiles).1 !!! "Ingested" = count is_ingested tiles
  /\ (tile_report tiles).1 !!! "Failed" = count is_failed tiles
  /\ (tile_report tiles).1 !!! "Pending" = count is_pending tiles
  /\ (tile_report tiles).1 !!! "Total" = Z.of_nat (length tiles)
  /\ (tile_report tiles).2 = map failure_reason (List.filter is_failed tiles).
Proof.
  unfold tile_report.
  destruct (report_loop tiles (initial_report tiles) []) as (H1 & H2 & H3 & H4 & H5).
  destruct (initial_report_values tiles) as (I1 & I2 & I3 & I4).
  rewrite H1, H2, H3, H4, H5, I1, I2, I3, I4. repeat split; lia.
Qed.

End Report.

(** C3. For every sequence of existing tiles the catalog returns, the report
    satisfies Ingested + Failed + Pending = Total, Total is the number of
    tiles, and Pending is the number of tiles whose status is neither
    INGESTED nor FAILED. *)
Theorem report_counts_sum_to_total (self : Ingestor) :
  let tiles := iter_tiles (byoc_client self) (byoc_collection self) in
  let report := (collection_tile_report self).1 in
  report !!! "Ingested" + report !!! "Failed" + report !!! "Pending" = report !!! "Total"
  /\ report !!! "Total" = Z.of_nat (length tiles)
  /\ report !!! "Pending"
     = count (fun tile => negb (String.eqb (tile_status tile) "INGESTED")
                          && negb (String.eqb (tile_status tile) "FAILED")) tiles.
Proof.
  cbn zeta. unfold collection_tile_report.
  set (tiles := iter_tiles _ _).
  destruct (tile_report_spec tiles) as (H1 & H2 & H3 & H4 & _).
  rewrite H1, H2, H3, H4. split; [apply count_partition|]. split; reflexivity.
Qed.

(** C10. The list of failure reasons has exactly as many entries as the
    report's Failed count: it is, in order, the reason of each FAILED tile
    (its failure cause when present, else the placeholder naming its path),
    and no other tile contributes. *)
Theorem failure_reasons_match_failed_count (self : Ingestor) :
  let tiles := iter_tiles (byoc_client self) (byoc_collection self) in
  let '(report, failed) := collection_tile_report self in
  Z.of_nat (length failed) = report !!! "Failed"
  /\ failed = map failure_reason
                  (List.filter (fun tile => String.eqb (tile_status tile) "FAILED") tiles)
  /\ (forall tile, failure_reason tile =
         match tile_additionalData tile with
         | Some additional =>
             default ("Unknown failure for tile " +:+ tile_path tile)
                     (additional !! "failedIngestionCause")
         | None => "Unknown failure for tile " +:+ tile_path tile
         end).
Proof.
  cbn zeta. unfold collection_tile_report.
  set (tiles := iter_tiles _ _).
  destruct (tile_report_spec tiles) as (_ & H2 & _ & _ & H5).
  destruct (tile_report tiles) as [report failed]. cbn [fst snd] in *.
  split; [|split].
  - rewrite H2, H5. unfold count. by rewrite length_map.
  - exact H5.
  - intros tile. unfold failure_reason.
    destruct (tile_additionalData tile) as [additional|]; [|reflexivity].
    by destruct (additional !! "failedIngestionCause").
Qed.

(** ** ingest_tiles_to_collection *)

Section Ingest.

Lemma existsb_eqb_In (p : string) (l : list string) :
  existsb (String.eqb p) l = true <-> In p l.
Proof.
  rewrite existsb_exists. split.
  - intros (x & Hx & Heq). apply String.eqb_eq in Heq. by subst.
  - intros Hin. exists p. split; [done|]. apply String.eqb_refl.
Qed.

Lemma existing_paths_raises existing_tiles :
  existing_tiles <> [] -> existing_paths existing_tiles = Raise (AttributeError "path").
Proof. by destruct existing_tiles. Qed.

(** With tiles in the catalog the loop raises at its first tile, before any
    request. *)
Lemma submit_loop_raises coll existing_tiles byoc_tiles client :
  existing_tiles <> [] -> byoc_tiles <> [] ->
  submit_loop coll existing_tiles byoc_tiles client
  = (client, Raise (AttributeError "path")).
Proof.
  intros Hexisting Hbuilt. destruct byoc_tiles as [|tile rest]; [contradiction|].
  cbn [submit_loop]. by rewrite existing_paths_raises.
Qed.

(** With no tile in the catalog every built tile is requested. *)
Lemma submit_loop_empty_catalog coll byoc_tiles : forall client,
  submit_loop coll [] byoc_tiles client
  = ({| catalog := catalog client;
        requests := requests client ++ tile_requests coll byoc_tiles |}, Ok tt).
Proof.
  induction byoc_tiles as [|tile rest IH]; intros client.
  - cbn. rewrite app_nil_r. by destruct client.
  - cbn [submit_loop existing_paths existsb]. rewrite IH.
    cbn [create_tile catalog requests tile_requests map path].
    by rewrite <- app_assoc.
Qed.

End Ingest.

(** C2 (code bug). The claim is what the docstring promises, and the code
    does not do it: as soon as the catalog returns a tile and the build a
    tile, the list [[x.path for x in existing_tiles]] raises AttributeError
    at the first built tile, the items being mappings, so the call raises
    and no creation request is sent, not even for a tile whose path no
    existing tile has. *)
Theorem ingest_raises_when_catalog_has_tiles (strptime : Strptime)
  (self : Ingestor) (stp : SensingTimePosition) (bp : BandPosition)
  (built : list (string * datetime)) :
  build_byoc_tiles strptime self stp bp = Ok built ->
  built <> [] ->
  iter_tiles (byoc_client self) (byoc_collection self) <> [] ->
  ingest_tiles_to_collection strptime self stp bp
  = (self, Raise (AttributeError "path"))
  /\ requests (byoc_client (ingest_tiles_to_collection strptime self stp bp).1)
     = requests (byoc_client self).
Proof.
  intros Hbuild Hbuilt Hexisting.
  assert (ingest_tiles_to_collection strptime self stp bp
          = (self, Raise (AttributeError "path"))) as Hout.
  { unfold ingest_tiles_to_collection. rewrite Hbuild.
    rewrite submit_loop_raises by assumption. by destruct self. }
  split; [exact Hout|]. by rewrite Hout.
Qed.

(** The failing input of C2: the catalog holds the tile of 15 June; the keys
    give that tile and the tile of 16 June, which no existing tile has and
    which is not requested. *)
Lemma ingest_raises_when_catalog_has_tiles_witness :
  build_byoc_tiles numeric_strptime
    (ingestor_on (catalog_with [tile_of_15_june])
                 ["S2/20230615/B04_10m.tif"; "S2/20230616/B04_10m.tif"])
    (date_folder "_") band_first_in_last_segment
  = Ok [("S2/20230615/(BAND)_10m.tif", Datetime 2023 6 15 0 0 0);
        ("S2/20230616/(BAND)_10m.tif", Datetime 2023 6 16 0 0 0)]
  /\ ~ In "S2/20230616/(BAND)_10m.tif" (map tile_path [tile_of_15_june])
  /\ ingest_tiles_to_collection numeric_strptime
       (ingestor_on (catalog_with [tile_of_15_june])
                    ["S2/20230615/B04_10m.tif"; "S2/20230616/B04_10m.tif"])
       (date_folder "_") band_first_in_last_segment
     = (ingestor_on (catalog_with [tile_of_15_june])
                    ["S2/20230615/B04_10m.tif"; "S2/20230616/B04_10m.tif"],
        Raise (AttributeError "path")).
Proof.
  assert (build_byoc_tiles numeric_strptime
            (ingestor_on (catalog_with [tile_of_15_june])
                         ["S2/20230615/B04_10m.tif"; "S2/20230616/B04_10m.tif"])
            (date_folder "_") band_first_in_last_segment
          = Ok [("S2/20230615/(BAND)_10m.tif", Datetime 2023 6 15 0 0 0);
                ("S2/20230616/(BAND)_10m.tif", Datetime 2023 6 16 0 0 0)]) as Hbuild
    by (vm_compute; reflexivity).
  split; [exact Hbuild|]. split.
  - cbn. intros [Heq|[]]. discriminate.
  - apply (ingest_raises_when_catalog_has_tiles _ _ _ _ _ Hbuild); discriminate.
Defined.

(** With no tile in the catalog both built tiles are requested. *)
Example ingest_on_empty_catalog :
  requests (byoc_client
    (ingest_tiles_to_collection numeric_strptime
       (ingestor_on (catalog_with [])
                    ["S2/20230615/B04_10m.tif"; "S2/20230616/B04_10m.tif"])
       (date_folder "_") band_first_in_last_segment).1)
  = [CreateTile (Some s2_collection)
       {| path := "S2/20230615/(BAND)_10m.tif";
          sensing_time := Datetime 2023 6 15 0 0 0 |};
     CreateTile (Some s2_collection)
       {| path := "S2/20230616/(BAND)_10m.tif";
          sensing_time := Datetime 2023 6 16 0 0 0 |}].
Proof. vm_compute. reflexivity. Qed.

(** ** build_byoc_tiles *)

Section Build.

Variable strptime : Strptime.
Variable stp : SensingTimePosition.
Variable bp : BandPosition.

Lemma bind_Ok {A B} (a : A) (f : A -> result B) : (Ok a ≫= f) = f a.
Proof. reflexivity. Qed.

Lemma bind_Raise {A B} (e : exn) (f : A -> result B) : (Raise e ≫= f) = Raise e.
Proof. reflexivity. Qed.

Lemma bind_Ok_inv {A B} (m : result A) (f : A -> result B) b :
  (m ≫= f) = Ok b -> exists a, m = Ok a /\ f a = Ok b.
Proof. destruct m as [a|e]; [|discriminate]. intros H. by exists a. Qed.

Lemma build_loop_derive_all keys : forall acc,
  for_each (build_step strptime stp bp) keys acc
  = match derive_all strptime stp bp keys with
    | Ok derived => Ok (dedup_loop derived acc)
    | Raise e => Raise e
    end.
Proof.
  induction keys as [|key keys IH]; intros acc; [reflexivity|].
  cbn [for_each derive_all].
  assert (build_step strptime stp bp key acc
          = (tile ← derive strptime stp bp key;
             Ok (if path_in (fst tile) acc then acc else acc ++ [tile]))) as ->
    by reflexivity.
  destruct (derive strptime stp bp key) as [tile|e]; [|reflexivity].
  rewrite !bind_Ok. rewrite IH.
  by destruct (derive_all strptime stp bp keys).
Qed.

Lemma derive_all_app keys1 keys2 :
  derive_all strptime stp bp (keys1 ++ keys2)
  = (d1 ← derive_all strptime stp bp keys1;
     d2 ← derive_all strptime stp bp keys2;
     Ok (d1 ++ d2)).
Proof.
  induction keys1 as [|key keys1 IH].
  - cbn. by destruct (derive_all strptime stp bp keys2).
  - cbn [app derive_all]. destruct (derive strptime stp bp key); [|reflexivity].
    rewrite !bind_Ok, IH.
    destruct (derive_all strptime stp bp keys1); [|reflexivity].
    rewrite !bind_Ok. by destruct (derive_all strptime stp bp keys2).
Qed.

Lemma derive_all_ok_iff keys :
  is_ok (derive_all strptime stp bp keys) = true
  <-> forall key, In key keys -> is_ok (derive strptime stp bp key) = true.
Proof.
  induction keys as [|key keys IH]; cbn [derive_all].
  - split; [intros _ ? []|reflexivity].
  - destruct (derive strptime stp bp key) as [tile|e] eqn:Hd.
    + rewrite bind_Ok.
      destruct (derive_all strptime stp bp keys) as [tiles|e'].
      * split; [|reflexivity]. intros _ k [<-|Hin]; [by rewrite Hd|].
        by apply IH.
      * split; [discriminate|]. intros Hall. apply IH.
        intros k Hin. apply Hall. by right.
    + split; [discriminate|]. intros Hall.
      specialize (Hall key (or_introl eq_refl)). by rewrite Hd in Hall.
Qed.

Lemma derive_bad_date key token :
  date_token stp key = Ok token ->
  strptime token (st_format stp) = None ->
  derive strptime stp bp key = Raise (ValueError_time_data token (st_format stp)).
Proof.
  intros Htok Hbad. unfold derive, sensing_time_of.
  rewrite Htok, bind_Ok, Hbad. reflexivity.
Qed.

Lemma derive_all_In keys : forall derived key,
  derive_all strptime stp bp keys = Ok derived -> In key keys ->
  exists tile, derive strptime stp bp key = Ok tile /\ In tile derived.
Proof.
  induction keys as [|k keys IH]; intros derived key Hall Hin; [destruct Hin|].
  cbn [derive_all] in Hall.
  apply bind_Ok_inv in Hall as (tile & Hk & Hall).
  apply bind_Ok_inv in Hall as (tiles & Hks & Heq).
  inversion Heq; subst derived.
  destruct Hin as [<-|Hin].
  - exists tile. split; [done|by left].
  - destruct (IH tiles key Hks Hin) as (t & Ht & Hin'). exists t. split; [done|by right].
Qed.

Lemma derive_all_lookup keys : forall derived i tile,
  derive_all strptime stp bp keys = Ok derived -> derived !! i = Some tile ->
  exists key, keys !! i = Some key /\ derive strptime stp bp key = Ok tile.
Proof.
  induction keys as [|k keys IH]; intros derived i tile Hall Hi.
  - inversion Hall; subst. by rewrite lookup_nil in Hi.
  - cbn [derive_all] in Hall.
    apply bind_Ok_inv in Hall as (tile0 & Hk & Hall).
    apply bind_Ok_inv in Hall as (tiles & Hks & Heq).
    inversion Heq; subst derived.
    destruct i as [|i]; cbn in Hi.
    + inversion Hi; subst. exists k. by split.
    + destruct (IH tiles i tile Hks Hi) as (key & Hkey & Hd). exists key. by split.
Qed.

End Build.

(** ** First occurrences *)

Section FirstOccurrences.

Context {B : Type}.
Implicit Types (l : list (string * B)) (seen : list string).

Lemma dedup_loop_first_occurrences (derived : list (string * datetime)) : forall acc,
  dedup_loop derived acc = acc ++ first_occurrences (map fst acc) derived.
Proof.
  unfold dedup_loop.
  induction derived as [|tile derived IH]; intros acc; cbn [fold_left first_occurrences].
  - by rewrite app_nil_r.
  - destruct (path_in (fst tile) acc) eqn:Hseen; unfold path_in in Hseen; rewrite Hseen.
    + apply IH.
    + rewrite IH, map_app. cbn [map]. by rewrite <- app_assoc.
Qed.

Lemma first_with_path_cons_S l tile0 i tile :
  fst tile0 <> fst tile ->
  first_with_path l i tile -> first_with_path (tile0 :: l) (S i) tile.
Proof.
  intros Hne [Hi Hbefore]. split; [exact Hi|].
  intros [|j] other Hlt Hj; cbn in Hj.
  - by inversion Hj; subst.
  - apply (Hbefore j); [lia|done].
Qed.

Lemma first_with_path_cons_inv l tile0 i tile :
  first_with_path (tile0 :: l) i tile ->
  (i = O /\ tile = tile0)
  \/ (exists i', i = S i' /\ fst tile0 <> fst tile /\ first_with_path l i' tile).
Proof.
  intros [Hi Hbefore]. destruct i as [|i'].
  - left. cbn in Hi. by inversion Hi.
  - right. exists i'. split; [done|]. split.
    + apply (Hbefore O); [lia|reflexivity].
    + split; [exact Hi|]. intros j other Hlt Hj. apply (Hbefore (S j)); [lia|exact Hj].
Qed.

(** A tile is kept exactly when its path is not in [seen] and it is the
    first tile of [l] with its path. *)
Lemma first_occurrences_In l : forall seen tile,
  In tile (first_occurrences seen l)
  <-> ~ In (fst tile) seen /\ exists i, first_with_path l i tile.
Proof.
  induction l as [|tile0 l IH]; intros seen tile; cbn [first_occurrences].
  - split; [intros []|]. intros [_ [i [Hi _]]]. by rewrite lookup_nil in Hi.
  - destruct (existsb (String.eqb (fst tile0)) seen) eqn:Hseen.
    + apply existsb_eqb_In in Hseen. rewrite IH. split.
      * intros [Hnot [i Hfirst]]. split; [done|]. exists (S i).
        apply first_with_path_cons_S; [|done]. congruence.
      * intros [Hnot [i Hfirst]]. split; [done|].
        apply first_with_path_cons_inv in Hfirst as [[_ ->]|(i' & _ & _ & Hfirst)];
          [contradiction|by exists i'].
    + assert (~ In (fst tile0) seen) as Hnew.
      { intros Hin. apply existsb_eqb_In in Hin. congruence. }
      cbn [In]. rewrite IH. split.
      * intros [<-|[Hnot [i Hfirst]]].
        -- split; [done|]. exists O. split; [reflexivity|]. intros j other Hlt. lia.
        -- rewrite in_app_iff in Hnot. split; [tauto|]. exists (S i).
           apply first_with_path_cons_S; [|done]. cbn in Hnot. intros Heq. tauto.
      * intros [Hnot [i Hfirst]].
        apply first_with_path_cons_inv in Hfirst as [[_ ->]|(i' & _ & Hne & Hfirst)];
          [by left|].
        right. split; [|by exists i'].
        rewrite in_app_iff. cbn. intros [Hin|[Heq|[]]]; [contradiction|congruence].
Qed.

Lemma first_occurrences_NoDup l : forall seen,
  NoDup (map fst (first_occurrences seen l)).
Proof.
  induction l as [|tile0 l IH]; intros seen; cbn [first_occurrences].
  - constructor.
  - destruct (existsb (String.eqb (fst tile0)) seen); [apply IH|].
    cbn [map]. constructor; [|apply IH].
    rewrite list_elem_of_In, in_map_iff. intros (tile & Heq & Hin).
    apply first_occurrences_In in Hin as [Hnot _].
    apply Hnot. rewrite in_app_iff. right. left. by symmetry.
Qed.

Lemma first_occurrences_sublist l : forall seen,
  sublist (first_occurrences seen l) l.
Proof.
  induction l as [|tile0 l IH]; intros seen; cbn [first_occurrences].
  - constructor.
  - destruct (existsb (String.eqb (fst tile0)) seen).
    + apply sublist_cons, IH.
    + apply sublist_skip, IH.
Qed.

(** Every path of [l] that is not in [seen] is the path of a kept tile. *)
Lemma first_occurrences_paths l : forall seen p,
  In p (map fst l) -> In p seen \/ In p (map fst (first_occurrences seen l)).
Proof.
  induction l as [|tile0 l IH]; intros seen p Hin; [destruct Hin|].
  cbn [first_occurrences]. cbn [map In] in Hin.
  destruct (existsb (String.eqb (fst tile0)) seen) eqn:Hseen.
  - destruct Hin as [<-|Hin]; [|by apply IH].
    left. by apply existsb_eqb_In.
  - cbn [map In]. destruct Hin as [<-|Hin]; [right; by left|].
    destruct (IH (seen ++ [fst tile0]) p Hin) as [Hs|Hk]; [|right; by right].
    apply in_app_iff in Hs as [Hs|[<-|[]]]; [by left|right; by left].
Qed.

(** When paths are pairwise distinct, the tiles with a given path are one. *)
Lemma filter_path_unique l p (b : B) :
  NoDup (map fst l) -> In (p, b) l ->
  List.filter (fun tile => String.eqb (fst tile) p) l = [(p, b)].
Proof.
  induction l as [|tile0 l IH]; intros Hnd Hin; [destruct Hin|].
  cbn [map] in Hnd.
  pose proof (NoDup_cons_1_1 _ _ Hnd) as Hfresh.
  apply NoDup_cons_1_2 in Hnd.
  assert (forall l', ~ In p (map fst l') ->
            List.filter (fun tile : string * B => String.eqb (fst tile) p) l' = []) as Hnone.
  { induction l' as [|x l' IH']; intros Hnot; [reflexivity|]. cbn [List.filter].
    destruct (String.eqb (fst x) p) eqn:Hx.
    - apply String.eqb_eq in Hx. exfalso. apply Hnot. left. exact Hx.
    - apply IH'. intros Hin'. apply Hnot. by right. }
  cbn [List.filter]. destruct Hin as [->|Hin].
  - cbn [fst]. rewrite String.eqb_refl. f_equal. apply Hnone.
    by rewrite <- list_elem_of_In.
  - destruct (String.eqb (fst tile0) p) eqn:Hx; [|by apply IH].
    apply String.eqb_eq in Hx. exfalso. apply Hfresh.
    rewrite list_elem_of_In, in_map_iff. exists (p, b). by split.
Qed.

End FirstOccurrences.

(** ** Keys that differ only in the band token *)

Section BandCollapse.

Variable bp : BandPosition.

Lemma setitem_Some {A} (l : list A) (i : Z) (j : nat) (x : A) :
  py_pos (length l) i = Some j -> setitem l i x = Ok (<[j := x]> l).
Proof. intros Hj. unfold setitem. by rewrite Hj. Qed.

Lemma blanked_eq_length {A} (l1 l2 : list A) (i : nat) (x : A) :
  <[i := x]> l1 = <[i := x]> l2 -> length l1 = length l2.
Proof.
  intros Heq. apply (f_equal length) in Heq. by rewrite !length_insert in Heq.
Qed.

Lemma blanked_eq_insert {A} (l1 l2 : list A) (i : nat) (x y : A) :
  <[i := x]> l1 = <[i := x]> l2 -> <[i := y]> l1 = <[i := y]> l2.
Proof.
  intros Heq. apply (f_equal (fun l => <[i := y]> l)) in Heq.
  by rewrite !list_insert_insert_eq in Heq.
Qed.

Lemma blanked_eq_all_but_last {A} (l1 l2 : list A) (x : A) :
  <[Nat.pred (length l1) := x]> l1 = <[Nat.pred (length l1) := x]> l2 ->
  all_but_last l1 = all_but_last l2.
Proof.
  intros Heq. unfold all_but_last.
  rewrite <- (blanked_eq_length _ _ _ _ Heq).
  rewrite <- (take_insert_ge l1 _ (Nat.pred (length l1)) x) by lia.
  rewrite <- (take_insert_ge l2 _ (Nat.pred (length l1)) x) by lia.
  by rewrite Heq.
Qed.

(** With the file name in the last segment, two keys that differ only in
    the band token have one canonical path. *)
Lemma differ_only_in_band_same_path key1 key2 :
  differ_only_in_band bp key1 key2 = true ->
  selects_last_segment bp key1 ->
  exists p, byoc_path_of bp key1 = Ok p /\ byoc_path_of bp key2 = Ok p.
Proof.
  unfold differ_only_in_band. intros Hdiff (segments & Hsplit & Hlast).
  rewrite Hsplit in Hdiff.
  destruct (split key2 "/") as [segments2|] eqn:Hsplit2; [|discriminate].
  rewrite Hlast in Hdiff.
  destruct (getitem segments (bp_path bp)) as [file_name1|] eqn:Hf1; [|discriminate].
  destruct (getitem segments2 (bp_path bp)) as [file_name2|] eqn:Hf2; [|discriminate].
  apply andb_prop in Hdiff as [Hsegs Hparts].
  apply bool_decide_eq_true in Hsegs.
  destruct (split file_name1 (bp_delimiter bp)) as [parts1|] eqn:Hp1; [|discriminate].
  destruct (split file_name2 (bp_delimiter bp)) as [parts2|] eqn:Hp2; [|discriminate].
  destruct (py_pos (length parts1) (bp_position bp)) as [j|] eqn:Hj; [|discriminate].
  apply bool_decide_eq_true in Hparts.
  exists (join "/" (all_but_last segments) +:+ "/"
          +:+ join (bp_delimiter bp) (<[j := "(BAND)"]> parts1)).
  unfold byoc_path_of, new_file_name_of. split.
  - rewrite Hsplit, !bind_Ok, Hf1, bind_Ok, Hp1, bind_Ok.
    rewrite (setitem_Some _ _ j) by exact Hj. reflexivity.
  - rewrite Hsplit2, !bind_Ok, Hf2, bind_Ok, Hp2, bind_Ok.
    rewrite (setitem_Some _ _ j)
      by (rewrite <- (blanked_eq_length _ _ _ _ Hparts); exact Hj).
    rewrite !bind_Ok.
    rewrite <- (blanked_eq_all_but_last _ _ _ Hsegs).
    by rewrite <- (blanked_eq_insert _ _ _ _ "(BAND)" Hparts).
Qed.

End BandCollapse.

(** C1 (as amended). When the build succeeds, its tiles are the tiles
    derived from the keys with, for each canonical path, only the one of the
    first key that produced it, in input order: paths are pairwise distinct,
    every derived path has its tile, and a tile is emitted exactly when it is
    the first derived tile with its path (so its sensing time is that of the
    first key). When the configured file-name index selects the last
    segment, keys that differ only in the band token share one canonical
    path and so one tile. *)
Theorem build_one_tile_per_canonical_path (strptime : Strptime) (self : Ingestor)
  (stp : SensingTimePosition) (bp : BandPosition) (tiles : list (string * datetime)) :
  build_byoc_tiles strptime self stp bp = Ok tiles ->
  exists derived,
    derive_all strptime stp bp (file_list self) = Ok derived
    /\ (forall i tile, derived !! i = Some tile ->
          exists key, file_list self !! i = Some key
                      /\ derive strptime stp bp key = Ok tile)
    /\ NoDup (map fst tiles)
    /\ (forall p, In p (map fst tiles) <-> In p (map fst derived))
    /\ (forall tile, In tile tiles <-> exists i, first_with_path derived i tile)
    /\ sublist tiles derived
    /\ (forall key1 key2,
          In key1 (file_list self) -> In key2 (file_list self) ->
          differ_only_in_band bp key1 key2 = true ->
          selects_last_segment bp key1 ->
          exists p t,
            byoc_path_of bp key1 = Ok p /\ byoc_path_of bp key2 = Ok p
            /\ List.filter (fun tile => String.eqb (fst tile) p) tiles = [(p, t)]).
Proof.
  unfold build_byoc_tiles. rewrite build_loop_derive_all.
  destruct (derive_all strptime stp bp (file_list self)) as [derived|e] eqn:Hall;
    [|discriminate].
  intros Htiles. inversion Htiles as [Heq]. clear Htiles.
  rewrite dedup_loop_first_occurrences. cbn [map app].
  exists derived. split; [reflexivity|].
  split; [intros i tile; by apply derive_all_lookup|].
  assert (forall p, In p (map fst (first_occurrences [] derived))
                    <-> In p (map fst derived)) as Hpaths.
  { intros p. split.
    - intros Hin. rewrite <- !list_elem_of_In in *.
      eapply elem_of_sublist; [exact Hin|].
      apply (fmap_sublist fst). apply first_occurrences_sublist.
    - intros Hin. by destruct (first_occurrences_paths derived [] p Hin) as [[]|]. }
  split; [apply first_occurrences_NoDup|].
  split; [exact Hpaths|].
  split.
  { intros tile. rewrite first_occurrences_In. cbn. tauto. }
  split; [apply first_occurrences_sublist|].
  intros key1 key2 Hin1 Hin2 Hdiff Hlast.
  destruct (differ_only_in_band_same_path bp key1 key2 Hdiff Hlast) as (p & Hp1 & Hp2).
  destruct (derive_all_In strptime stp bp _ _ key1 Hall Hin1) as ([p1 t1] & Hd1 & Hder1).
  assert (p1 = p) as ->.
  { unfold derive in Hd1. apply bind_Ok_inv in Hd1 as (t & _ & Hd1).
    rewrite Hp1, bind_Ok in Hd1. by inversion Hd1. }
  assert (In p (map fst (first_occurrences [] derived))) as Hin.
  { apply Hpaths. apply in_map_iff. exists (p, t1). by split. }
  apply in_map_iff in Hin as ([p' t] & Hfst & Hin). cbn in Hfst. subst p'.
  exists p, t. split; [done|]. split; [done|].
  apply filter_path_unique; [apply first_occurrences_NoDup|exact Hin].
Qed.

(** Witness of C1: three keys, two of which differ only in the band token. *)
Lemma build_one_tile_per_canonical_path_witness :
  build_byoc_tiles numeric_strptime
    (ingestor_with no_catalog ["S2/20230615/B04_10m.tif"; "S2/20230615/B08_10m.tif";
                               "S2/20230616/B04_10m.tif"])
    (date_folder "_") band_first_in_last_segment
  = Ok [("S2/20230615/(BAND)_10m.tif", Datetime 2023 6 15 0 0 0);
        ("S2/20230616/(BAND)_10m.tif", Datetime 2023 6 16 0 0 0)]
  /\ NoDup ["S2/20230615/(BAND)_10m.tif"; "S2/20230616/(BAND)_10m.tif"].
Proof.
  assert (build_byoc_tiles numeric_strptime
            (ingestor_with no_catalog ["S2/20230615/B04_10m.tif"; "S2/20230615/B08_10m.tif";
                                       "S2/20230616/B04_10m.tif"])
            (date_folder "_") band_first_in_last_segment
          = Ok [("S2/20230615/(BAND)_10m.tif", Datetime 2023 6 15 0 0 0);
                ("S2/20230616/(BAND)_10m.tif", Datetime 2023 6 16 0 0 0)]) as Hbuild
    by (vm_compute; reflexivity).
  split; [exact Hbuild|].
  destruct (build_one_tile_per_canonical_path _ _ _ _ _ Hbuild)
    as (derived & _ & _ & Hnd & _).
  exact Hnd.
Defined.

(** Counterexample to C1 as stated: with the band token in a folder name,
    two keys that differ only in that token give two tiles. *)
Lemma band_token_in_folder_not_collapsed :
  differ_only_in_band band_first_in_folder
    "S2/B04_10m/20230615.tif" "S2/B08_10m/20230615.tif" = true
  /\ build_byoc_tiles numeric_strptime
       (ingestor_with no_catalog ["S2/B04_10m/20230615.tif"; "S2/B08_10m/20230615.tif"])
       date_in_file_name band_first_in_folder
     = Ok [("S2/B04_10m/(BAND)_10m", Datetime 2023 6 15 0 0 0);
           ("S2/B08_10m/(BAND)_10m", Datetime 2023 6 15 0 0 0)].
Proof. split; vm_compute; reflexivity. Qed.

(** ** The documented example *)

(** C4 (as amended). With a sensing-time delimiter that is not empty and
    does not occur in "20230615", the path of the example derives to the
    canonical path "S2/20230615/(BAND)_10m.tif" and the sensing time
    2023-06-15T00:00:00, and a build on that single key returns that tile. *)
Theorem derive_documented_example (delimiter : string) :
  split "20230615" delimiter = Ok ["20230615"] ->
  derive numeric_strptime (date_folder delimiter) band_first_in_last_segment
         "S2/20230615/B04_10m.tif"
  = Ok ("S2/20230615/(BAND)_10m.tif", Datetime 2023 6 15 0 0 0)
  /\ build_byoc_tiles numeric_strptime
       (ingestor_with no_catalog ["S2/20230615/B04_10m.tif"])
       (date_folder delimiter) band_first_in_last_segment
     = Ok [("S2/20230615/(BAND)_10m.tif", Datetime 2023 6 15 0 0 0)].
Proof.
  intros Hsplit.
  assert (date_token (date_folder delimiter) "S2/20230615/B04_10m.tif" = Ok "20230615")
    as Htoken.
  { unfold date_token. cbn [date_folder st_path st_delimiter st_position].
    change (split "S2/20230615/B04_10m.tif" "/")
      with (Ok ["S2"; "20230615"; "B04_10m.tif"]).
    rewrite bind_Ok.
    change (getitem ["S2"; "20230615"; "B04_10m.tif"] 1) with (Ok "20230615").
    rewrite bind_Ok, Hsplit. reflexivity. }
  assert (derive numeric_strptime (date_folder delimiter) band_first_in_last_segment
                 "S2/20230615/B04_10m.tif"
          = Ok ("S2/20230615/(BAND)_10m.tif", Datetime 2023 6 15 0 0 0)) as Hderive.
  { unfold derive, sensing_time_of. rewrite Htoken, bind_Ok. reflexivity. }
  split; [exact Hderive|].
  unfold build_byoc_tiles. cbn [ingestor_with file_list for_each].
  unfold build_step. rewrite Hderive. reflexivity.
Qed.

Lemma derive_documented_example_witness :
  split "20230615" "_" = Ok ["20230615"]
  /\ derive numeric_strptime (date_folder "_") band_first_in_last_segment
            "S2/20230615/B04_10m.tif"
     = Ok ("S2/20230615/(BAND)_10m.tif", Datetime 2023 6 15 0 0 0).
Proof.
  split; [reflexivity|].
  apply (derive_documented_example "_"). reflexivity.
Defined.

(** Counterexample to C4 as stated: with the delimiter "" of the example the
    split of the date segment raises and nothing is derived. *)
Lemma derive_empty_delimiter_raises :
  derive numeric_strptime (date_folder "") band_first_in_last_segment
         "S2/20230615/B04_10m.tif"
  = Raise ValueError_empty_separator
  /\ derive numeric_strptime (date_folder "") band_first_in_last_segment
            "S2/20230615/B04_10m.tif"
     <> Ok ("S2/20230615/(BAND)_10m.tif", Datetime 2023 6 15 0 0 0).
Proof. split; [reflexivity|discriminate]. Qed.

(** ** The canonical path *)

Lemma py_pos_minus_one n k : py_pos n (-1) = Some k -> k = Nat.pred n.
Proof.
  unfold py_pos. cbn [Z.leb Z.compare].
  destruct (Z.leb 0 (Z.of_nat n + -1)) eqn:Hn; [|discriminate].
  intros Heq. inversion Heq. lia.
Qed.

Lemma getitem_Ok_pos {A} (l : list A) (i : Z) (x : A) :
  getitem l i = Ok x -> exists k, py_pos (length l) i = Some k /\ l !! k = Some x.
Proof.
  unfold getitem. destruct (py_pos (length l) i) as [k|]; [|discriminate].
  destruct (l !! k) as [y|] eqn:Hk; [|discriminate].
  intros Heq. inversion Heq; subst. by exists k.
Qed.

Lemma setitem_Ok_pos {A} (l l' : list A) (i : Z) (x : A) :
  setitem l i x = Ok l' -> exists j, py_pos (length l) i = Some j /\ l' = <[j := x]> l.
Proof.
  unfold setitem. destruct (py_pos (length l) i) as [j|]; [|discriminate].
  intros Heq. inversion Heq. by exists j.
Qed.

(** C5 (as amended). The canonical path that [derive] produces is the
    segments of the path except the last one, joined by "/", then "/" and
    the segment at the configured file-name index with its band token
    replaced by the placeholder. It is the path of the specification when
    the configured index selects the last segment, in particular when it
    is -1. *)
Theorem canonical_path_keeps_all_but_last_segment (strptime : Strptime)
  (stp : SensingTimePosition) (bp : BandPosition) (tile_path cp : string)
  (t : datetime) :
  derive strptime stp bp tile_path = Ok (cp, t) ->
  exists segments file_name parts j,
    split tile_path "/" = Ok segments
    /\ getitem segments (bp_path bp) = Ok file_name
    /\ split file_name (bp_delimiter bp) = Ok parts
    /\ py_pos (length parts) (bp_position bp) = Some j
    /\ cp = join "/" (all_but_last segments) +:+ "/"
            +:+ join (bp_delimiter bp) (<[j := "(BAND)"]> parts)
    /\ (selects_last_segment bp tile_path -> canonical_path_spec bp tile_path = Ok cp)
    /\ (bp_path bp = -1 -> canonical_path_spec bp tile_path = Ok cp).
Proof.
  unfold derive. intros Hd.
  apply bind_Ok_inv in Hd as (t' & _ & Hd).
  apply bind_Ok_inv in Hd as (cp' & Hpath & Hd). inversion Hd; subst cp' t'. clear Hd.
  pose proof Hpath as Hpath0.
  unfold byoc_path_of in Hpath.
  apply bind_Ok_inv in Hpath as (new_file_name & Hname & Hpath).
  apply bind_Ok_inv in Hpath as (segments & Hsegs & Hpath).
  inversion Hpath as [Hcp]. clear Hpath.
  pose proof Hname as Hname0.
  unfold new_file_name_of in Hname. rewrite Hsegs, bind_Ok in Hname.
  apply bind_Ok_inv in Hname as (file_name & Hfile & Hname).
  apply bind_Ok_inv in Hname as (parts & Hparts & Hname).
  apply bind_Ok_inv in Hname as (parts' & Hset & Hname).
  inversion Hname as [Hnew]. clear Hname.
  apply setitem_Ok_pos in Hset as (j & Hj & ->).
  subst new_file_name cp.
  assert (forall k, py_pos (length segments) (bp_path bp) = Some k ->
                    k = Nat.pred (length segments) ->
                    canonical_path_spec bp tile_path
                    = Ok (join "/" (all_but_last segments) +:+ "/"
                          +:+ join (bp_delimiter bp) (<[j := "(BAND)"]> parts))) as Hspec.
  { intros k Hk ->. unfold canonical_path_spec.
    rewrite Hsegs, bind_Ok, Hk, Hname0, bind_Ok. reflexivity. }
  exists segments, file_name, parts, j.
  split; [exact Hsegs|]. split; [exact Hfile|]. split; [exact Hparts|].
  split; [exact Hj|]. split; [reflexivity|]. split.
  - intros (segments' & Hsegs' & Hlast).
    rewrite Hsegs in Hsegs'. inversion Hsegs'; subst segments'.
    by apply (Hspec _ Hlast).
  - intros Hminus.
    apply getitem_Ok_pos in Hfile as (k & Hk & _).
    apply (Hspec k Hk). rewrite Hminus in Hk. by apply py_pos_minus_one.
Qed.

Lemma canonical_path_keeps_all_but_last_segment_witness :
  derive numeric_strptime (date_folder "_") band_first_in_last_segment
         "S2/20230615/B04_10m.tif"
  = Ok ("S2/20230615/(BAND)_10m.tif", Datetime 2023 6 15 0 0 0)
  /\ canonical_path_spec band_first_in_last_segment "S2/20230615/B04_10m.tif"
     = Ok "S2/20230615/(BAND)_10m.tif".
Proof.
  assert (derive numeric_strptime (date_folder "_") band_first_in_last_segment
                 "S2/20230615/B04_10m.tif"
          = Ok ("S2/20230615/(BAND)_10m.tif", Datetime 2023 6 15 0 0 0)) as Hd
    by reflexivity.
  split; [exact Hd|].
  destruct (canonical_path_keeps_all_but_last_segment _ _ _ _ _ _ Hd)
    as (segments & file_name & parts & j & _ & _ & _ & _ & _ & _ & Hminus).
  apply Hminus. reflexivity.
Defined.

(** Counterexample to C5 as stated: with the file-name index 1 of a path of
    three segments, the path the code builds keeps segment 1 in front of the
    substituted name, the path of the specification does not. *)
Lemma canonical_path_differs_for_inner_index :
  derive numeric_strptime date_in_file_name band_first_in_folder
         "S2/B04_10m/20230615.tif"
  = Ok ("S2/B04_10m/(BAND)_10m", Datetime 2023 6 15 0 0 0)
  /\ canonical_path_spec band_first_in_folder "S2/B04_10m/20230615.tif"
     = Ok "S2/(BAND)_10m"
  /\ "S2/B04_10m/(BAND)_10m" <> "S2/(BAND)_10m".
Proof. repeat split; [vm_compute; reflexivity..|discriminate]. Qed.

(** ** Failure of the build *)

(** C7 (as amended). When the date token of some key does not match the
    format, the build returns no tiles at all: it raises the error of the
    first key, in input order, whose extraction fails. That is the
    time-data ValueError of [strptime] for this key when every earlier key
    derives, and otherwise the error of the earlier key that fails first. *)
Theorem bad_date_token_fails_whole_build (strptime : Strptime) (self : Ingestor)
  (stp : SensingTimePosition) (bp : BandPosition)
  (before after : list string) (key token : string) :
  file_list self = before ++ key :: after ->
  date_token stp key = Ok token ->
  strptime token (st_format stp) = None ->
  build_byoc_tiles strptime self stp bp
  = Raise (match derive_all strptime stp bp before with
           | Ok _ => ValueError_time_data token (st_format stp)
           | Raise e => e
           end)
  /\ ((forall k, In k before -> is_ok (derive strptime stp bp k) = true) ->
      build_byoc_tiles strptime self stp bp
      = Raise (ValueError_time_data token (st_format stp))).
Proof.
  intros Hfiles Htoken Hbad.
  assert (build_byoc_tiles strptime self stp bp
          = Raise (match derive_all strptime stp bp before with
                   | Ok _ => ValueError_time_data token (st_format stp)
                   | Raise e => e
                   end)) as Hbuild.
  { unfold build_byoc_tiles. rewrite build_loop_derive_all, Hfiles, derive_all_app.
    destruct (derive_all strptime stp bp before) as [d1|e]; [|reflexivity].
    rewrite bind_Ok. cbn [derive_all].
    by rewrite (derive_bad_date strptime stp bp key token Htoken Hbad). }
  split; [exact Hbuild|].
  intros Hbefore. rewrite Hbuild.
  apply derive_all_ok_iff in Hbefore.
  by destruct (derive_all strptime stp bp before).
Qed.

Lemma bad_date_token_fails_whole_build_witness :
  date_token (date_folder "_") "S2/abcd/B04_10m.tif" = Ok "abcd"
  /\ numeric_strptime "abcd" "%Y%m%d" = None
  /\ build_byoc_tiles numeric_strptime
       (ingestor_with no_catalog ["S2/20230615/B04_10m.tif"; "S2/abcd/B04_10m.tif";
                                  "S2/20230616/B04_10m.tif"])
       (date_folder "_") band_first_in_last_segment
     = Raise (ValueError_time_data "abcd" "%Y%m%d").
Proof.
  split; [reflexivity|]. split; [reflexivity|].
  apply (bad_date_token_fails_whole_build numeric_strptime
           (ingestor_with no_catalog ["S2/20230615/B04_10m.tif"; "S2/abcd/B04_10m.tif";
                                      "S2/20230616/B04_10m.tif"])
           (date_folder "_") band_first_in_last_segment
           ["S2/20230615/B04_10m.tif"] ["S2/20230616/B04_10m.tif"]
           "S2/abcd/B04_10m.tif" "abcd"); try reflexivity.
  intros k [<-|[]]. reflexivity.
Defined.

(** Counterexample to C7 as stated: the second key has a date token that
    does not match, yet the build raises the IndexError of the first key,
    which has no segment 1. *)
Lemma earlier_key_error_wins :
  date_token (date_folder "_") "S2/abcd/B04_10m.tif" = Ok "abcd"
  /\ numeric_strptime "abcd" "%Y%m%d" = None
  /\ build_byoc_tiles numeric_strptime
       (ingestor_with no_catalog ["B04_10m.tif"; "S2/abcd/B04_10m.tif"])
       (date_folder "_") band_first_in_last_segment
     = Raise IndexError
  /\ build_byoc_tiles numeric_strptime
       (ingestor_with no_catalog ["B04_10m.tif"; "S2/abcd/B04_10m.tif"])
       (date_folder "_") band_first_in_last_segment
     <> Raise (ValueError_time_data "abcd" "%Y%m%d").
Proof. repeat split; [reflexivity..|discriminate]. Qed.

(** ** list_tiles *)

Section ListTiles.

Variable paginate : Paginator.
Variable params : TileListParameters.

Lemma scan_contents contents : forall tiff_files,
  for_each scan_subobj contents tiff_files
  = Ok (tiff_files ++ List.filter is_tiff (map Key contents)).
Proof.
  induction contents as [|subobj contents IH]; intros tiff_files; cbn [for_each].
  - cbn. by rewrite app_nil_r.
  - change (scan_subobj subobj tiff_files)
      with (Ok (if is_tiff (Key subobj) then tiff_files ++ [Key subobj]
                else tiff_files)).
    rewrite bind_Ok, IH. cbn [map List.filter].
    destruct (is_tiff (Key subobj)); [|reflexivity].
    by rewrite <- app_assoc.
Qed.

Lemma scan_subpages subpages : forall tiff_files,
  for_each scan_subpage subpages tiff_files
  = Ok (tiff_files ++ List.filter is_tiff (flat_map page_keys subpages)).
Proof.
  induction subpages as [|page subpages IH]; intros tiff_files; cbn [for_each].
  - cbn. by rewrite app_nil_r.
  - cbn [flat_map]. rewrite List.filter_app, app_assoc.
    destruct page as [contents|]; cbn [scan_subpage page_keys].
    + by rewrite scan_contents, bind_Ok, IH.
    + rewrite bind_Ok, IH. cbn. by rewrite app_nil_r.
Qed.

Lemma scan_obj_spec obj tiff_files :
  scan_obj paginate params obj tiff_files
  = match listing_error (paginate (bucket_name params) (Key obj)) with
    | Some e => Raise e
    | None => Ok (tiff_files ++ List.filter is_tiff
                    (listing_keys (paginate (bucket_name params) (Key obj))))
    end.
Proof. unfold scan_obj, for_pages. by rewrite scan_subpages, bind_Ok. Qed.

Let sub_ok (key : string) : bool := no_error (paginate (bucket_name params) key).
Let sub_keys (key : string) : list string :=
  listing_keys (paginate (bucket_name params) key).

Lemma scan_objs_ok contents : forall tiff_files,
  forallb sub_ok (map Key contents) = true ->
  for_each (scan_obj paginate params) contents tiff_files
  = Ok (tiff_files ++ List.filter is_tiff (flat_map sub_keys (map Key contents))).
Proof.
  induction contents as [|obj contents IH]; intros tiff_files Hok; cbn [for_each].
  - cbn. by rewrite app_nil_r.
  - cbn [map forallb] in Hok. apply andb_prop in Hok as [Hobj Hrest].
    rewrite scan_obj_spec. unfold sub_ok, no_error in Hobj.
    destruct (listing_error _); [discriminate|].
    rewrite bind_Ok, IH by exact Hrest.
    cbn [map flat_map]. by rewrite List.filter_app, app_assoc.
Qed.

Lemma scan_objs_fail contents : forall tiff_files,
  forallb sub_ok (map Key contents) = false ->
  exists e key, In key (map Key contents)
    /\ listing_error (paginate (bucket_name params) key) = Some e
    /\ for_each (scan_obj paginate params) contents tiff_files = Raise e.
Proof.
  induction contents as [|obj contents IH]; intros tiff_files Hfail; [discriminate|].
  cbn [for_each]. cbn [map forallb] in Hfail. rewrite scan_obj_spec.
  unfold sub_ok at 1, no_error in Hfail.
  destruct (listing_error (paginate (bucket_name params) (Key obj))) as [e|] eqn:Herr.
  - exists e, (Key obj). split; [by left|]. by split.
  - rewrite bind_Ok. cbn [andb] in Hfail.
    match goal with
    | |- context [for_each _ contents ?out] =>
        destruct (IH out Hfail) as (e & key & Hin & He & Hraise)
    end.
    exists e, key. split; [by right|]. by split.
Qed.

Lemma scan_pages_ok pgs : forall tiff_files,
  forallb sub_ok (flat_map page_keys pgs) = true ->
  for_each (scan_page paginate params) pgs tiff_files
  = Ok (tiff_files ++ List.filter is_tiff (flat_map sub_keys (flat_map page_keys pgs))).
Proof.
  induction pgs as [|page pgs IH]; intros tiff_files Hok; cbn [for_each].
  - cbn. by rewrite app_nil_r.
  - cbn [flat_map] in *. rewrite forallb_app in Hok.
    apply andb_prop in Hok as [Hpage Hrest].
    rewrite flat_map_app, List.filter_app, app_assoc.
    destruct page as [contents|]; cbn [scan_page page_keys] in *.
    + by rewrite scan_objs_ok, bind_Ok, IH.
    + rewrite bind_Ok, IH by exact Hrest. cbn. by rewrite app_nil_r.
Qed.

Lemma scan_pages_fail pgs : forall tiff_files,
  forallb sub_ok (flat_map page_keys pgs) = false ->
  exists e key, In key (flat_map page_keys pgs)
    /\ listing_error (paginate (bucket_name params) key) = Some e
    /\ for_each (scan_page paginate params) pgs tiff_files = Raise e.
Proof.
  induction pgs as [|page pgs IH]; intros tiff_files Hfail; [discriminate|].
  cbn [for_each]. cbn [flat_map] in Hfail. rewrite forallb_app in Hfail.
  cbn [flat_map]. setoid_rewrite in_app_iff.
  destruct (forallb sub_ok (page_keys page)) eqn:Hpage.
  - cbn [andb] in Hfail.
    assert (exists out, scan_page paginate params page tiff_files = Ok out) as [out ->].
    { destruct page as [contents|]; cbn [scan_page page_keys] in *; [|by eexists].
      rewrite scan_objs_ok by exact Hpage. by eexists. }
    rewrite bind_Ok. destruct (IH out Hfail) as (e & key & Hin & He & Hraise).
    exists e, key. split; [by right|]. by split.
  - destruct page as [contents|]; cbn [scan_page page_keys] in *; [|discriminate].
    destruct (scan_objs_fail contents tiff_files Hpage) as (e & key & Hin & He & Hraise).
    exists e, key. split; [by left|]. split; [done|]. by rewrite Hraise.
Qed.

Lemma list_tiles_ok self :
  listings_succeed paginate params = true ->
  list_tiles paginate self params
  = ({| byoc_client := byoc_client self;
        byoc_collection := byoc_collection self;
        file_list := List.filter is_tiff (returned_keys paginate params) |},
     Ok (List.filter is_tiff (returned_keys paginate params))).
Proof.
  unfold listings_succeed. intros Hok. apply andb_prop in Hok as [Hsub Houter].
  unfold list_tiles, for_pages.
  rewrite (scan_pages_ok _ [] Hsub), bind_Ok.
  unfold no_error in Houter. destruct (listing_error _); [discriminate|].
  reflexivity.
Qed.

(** A failing listing: the method raises the error of a listing it iterated
    and returns [self] as it was. *)
Lemma list_tiles_fail self :
  listings_succeed paginate params = false ->
  exists e prefix,
    listing_error (paginate (bucket_name params) prefix) = Some e
    /\ list_tiles paginate self params = (self, Raise e).
Proof.
  unfold listings_succeed. intros Hfail. unfold list_tiles, for_pages.
  destruct (forallb _ _) eqn:Hsub.
  - rewrite (scan_pages_ok _ [] Hsub), bind_Ok.
    cbn [andb] in Hfail. unfold no_error in Hfail.
    destruct (listing_error (paginate (bucket_name params) (base_path params)))
      as [e|] eqn:Herr; [|discriminate].
    exists e, (base_path params). by split.
  - destruct (scan_pages_fail _ [] Hsub) as (e & key & _ & He & Hraise).
    exists e, key. split; [done|]. by rewrite Hraise.
Qed.

End ListTiles.

Lemma endswith_lower s suf :
  endswith s suf = true -> endswith (lower s) (lower suf) = true.
Proof.
  induction s as [|c s IH]; cbn [endswith lower]; intros Hends.
  - rewrite orb_false_r in Hends. apply String.eqb_eq in Hends. subst suf.
    reflexivity.
  - apply orb_prop in Hends as [Heq|Htail].
    + apply String.eqb_eq in Heq. subst suf. cbn [lower].
      by rewrite String.eqb_refl.
    + by rewrite (IH Htail), orb_true_r.
Qed.

Lemma is_tiff_iff key :
  is_tiff key = true
  <-> endswith key ".tiff" = true \/ endswith key ".tif" = true
      \/ endswith key ".TIF" = true \/ endswith key ".TIFF" = true.
Proof.
  unfold is_tiff, endswith_any, tiff_suffixes. cbn [existsb].
  rewrite orb_false_r, !orb_true_iff. tauto.
Qed.

Lemma is_tiff_any_case key : is_tiff key = true -> tiff_suffix_any_case key = true.
Proof.
  rewrite is_tiff_iff. unfold tiff_suffix_any_case.
  intros [H|[H|[H|H]]]; apply endswith_lower in H; cbn [lower] in H;
    change (lower_ascii ".") with "."%char in H;
    change (lower_ascii "t") with "t"%char in H;
    change (lower_ascii "i") with "i"%char in H;
    change (lower_ascii "f") with "f"%char in H;
    change (lower_ascii "T") with "t"%char in H;
    change (lower_ascii "I") with "i"%char in H;
    change (lower_ascii "F") with "f"%char in H;
    rewrite H; by rewrite ?orb_true_r.
Qed.

(** C6 (as amended). When no listing fails, [list_tiles] returns and stores
    the returned keys that end with one of the four literal suffixes ".tiff",
    ".tif", ".TIF", ".TIFF", in the order returned: a returned key is in the
    result if and only if it ends with one of the four, and every key of
    the result ends with ".tif" or ".tiff" whatever the case. *)
Theorem list_tiles_keeps_four_literal_suffixes (paginate : Paginator)
  (self : Ingestor) (params : TileListParameters) :
  listings_succeed paginate params = true ->
  exists files,
    list_tiles paginate self params
    = ({| byoc_client := byoc_client self;
          byoc_collection := byoc_collection self;
          file_list := files |}, Ok files)
    /\ files = List.filter (fun key => endswith_any key [".tiff"; ".tif"; ".TIF"; ".TIFF"])
                           (returned_keys paginate params)
    /\ forall key, In key (returned_keys paginate params) ->
         (In key files
          <-> endswith key ".tiff" = true \/ endswith key ".tif" = true
              \/ endswith key ".TIF" = true \/ endswith key ".TIFF" = true)
         /\ (In key files -> tiff_suffix_any_case key = true).
Proof.
  intros Hok. exists (List.filter is_tiff (returned_keys paginate params)).
  split; [by apply list_tiles_ok|]. split; [reflexivity|].
  intros key Hkey. rewrite filter_In, <- is_tiff_iff. split; [tauto|].
  intros [_ Htiff]. by apply is_tiff_any_case.
Qed.

Lemma list_tiles_keeps_four_literal_suffixes_witness :
  listings_succeed two_key_bucket example_params = true
  /\ exists files,
       list_tiles two_key_bucket (ingestor_with no_catalog []) example_params
       = (ingestor_with no_catalog files, Ok files)
       /\ (In "S2/20230615/B04_10m.tif" files
           <-> endswith "S2/20230615/B04_10m.tif" ".tiff" = true
               \/ endswith "S2/20230615/B04_10m.tif" ".tif" = true
               \/ endswith "S2/20230615/B04_10m.tif" ".TIF" = true
               \/ endswith "S2/20230615/B04_10m.tif" ".TIFF" = true).
Proof.
  split; [reflexivity|].
  destruct (list_tiles_keeps_four_literal_suffixes two_key_bucket
              (ingestor_with no_catalog []) example_params eq_refl)
    as (files & Hlist & _ & Hkeys).
  exists files. split; [exact Hlist|].
  apply Hkeys. left. reflexivity.
Defined.

(** Counterexample to C6 as stated: the store returns "S2/20230615/notes.Tif",
    which ends with ".tif" when case is ignored, and [list_tiles] leaves it
    out. *)
Lemma mixed_case_suffix_is_left_out :
  In "S2/20230615/notes.Tif" (returned_keys two_key_bucket example_params)
  /\ tiff_suffix_any_case "S2/20230615/notes.Tif" = true
  /\ (list_tiles two_key_bucket (ingestor_with no_catalog []) example_params).2
     = Ok ["S2/20230615/B04_10m.tif"]
  /\ ~ In "S2/20230615/notes.Tif" ["S2/20230615/B04_10m.tif"].
Proof.
  split; [right; left; reflexivity|]. split; [reflexivity|]. split; [reflexivity|].
  intros [Heq|[]]. discriminate.
Qed.

(** C9. When a listing fails during [list_tiles], the method raises the
    error of that listing and the Ingestor, its stored file list included,
    is as it was before the call: nothing gathered before the failure is
    kept. *)
Theorem list_tiles_failure_keeps_file_list (paginate : Paginator)
  (self : Ingestor) (params : TileListParameters) :
  listings_succeed paginate params = false ->
  exists e prefix,
    listing_error (paginate (bucket_name params) prefix) = Some e
    /\ list_tiles paginate self params = (self, Raise e)
    /\ file_list (list_tiles paginate self params).1 = file_list self.
Proof.
  intros Hfail.
  destruct (list_tiles_fail paginate params self Hfail) as (e & prefix & He & Hlist).
  exists e, prefix. split; [exact He|]. split; [exact Hlist|]. by rewrite Hlist.
Qed.

Lemma list_tiles_failure_keeps_file_list_witness :
  listings_succeed failing_bucket example_params = false
  /\ file_list (list_tiles failing_bucket (ingestor_with no_catalog ["old/B01.tif"])
                           example_params).1
     = ["old/B01.tif"].
Proof.
  split; [reflexivity|].
  destruct (list_tiles_failure_keeps_file_list failing_bucket
              (ingestor_with no_catalog ["old/B01.tif"]) example_params eq_refl)
    as (e & prefix & _ & _ & Hkept).
  exact Hkept.
Defined.

Example list_tiles_failure_outcome :
  list_tiles failing_bucket (ingestor_with no_catalog ["old/B01.tif"]) example_params
  = (ingestor_with no_catalog ["old/B01.tif"], Raise (ClientError "RequestTimeout")).
Proof. reflexivity. Qed.

(** ** create_byoc_collection *)

Section CreateCollection.

Lemma append_assoc (s1 s2 s3 : string) : (s1 +:+ s2) +:+ s3 = s1 +:+ (s2 +:+ s3).
Proof.
  induction s1 as [|c s1 IH]; [reflexivity|].
  change (String c ((s1 +:+ s2) +:+ s3) = String c (s1 +:+ (s2 +:+ s3))).
  by rewrite IH.
Qed.

Lemma append_empty_r (s : string) : s +:+ "" = s.
Proof.
  induction s as [|c s IH]; [reflexivity|].
  change (String c (s +:+ "") = String c s). by rewrite IH.
Qed.

Lemma occurs_in_join sep parts field :
  In field parts -> occurs_in field (join sep parts).
Proof.
  induction parts as [|x parts IH]; intros Hin; [destruct Hin|].
  destruct parts as [|y parts].
  - destruct Hin as [->|[]]. exists "", "". cbn. by rewrite append_empty_r.
  - change (join sep (x :: y :: parts)) with (x +:+ sep +:+ join sep (y :: parts)).
    destruct Hin as [->|Hin].
    + exists "", (sep +:+ join sep (y :: parts)). reflexivity.
    + destruct (IH Hin) as (before & after & Heq). rewrite Heq.
      exists (x +:+ sep +:+ before), after. by rewrite !append_assoc.
Qed.

Lemma occurs_in_message missing field :
  In field missing ->
  occurs_in field ("Each band must contain " +:+ join ", " missing +:+ " fields").
Proof.
  intros Hin. destruct (occurs_in_join ", " missing field Hin) as (before & after & Heq).
  rewrite Heq. exists ("Each band must contain " +:+ before), (after +:+ " fields").
  by rewrite !append_assoc.
Qed.

(** A field is reported missing exactly when the band lacks it. *)
Lemma missing_fields_of_In band field :
  In field (missing_fields_of band) <-> In field required_fields /\ band !! field = None.
Proof.
  unfold missing_fields_of. rewrite filter_In.
  destruct (band !! field); split; intros [? ?]; split; done.
Qed.

Lemma band_step_complete band band_parameters :
  missing_fields_of band = [] -> is_ok (band_step band band_parameters) = true.
Proof.
  intros Hnone.
  assert (forall field, In field required_fields -> is_Some (band !! field)) as Hall.
  { intros field Hin. destruct (band !! field) eqn:Hf; [by eexists|].
    assert (In field (missing_fields_of band)) as Hmiss
      by (apply missing_fields_of_In; by split).
    rewrite Hnone in Hmiss. destruct Hmiss. }
  unfold band_step. rewrite Hnone. unfold dict_get.
  destruct (Hall "name") as [v1 ->]; [cbn; tauto|].
  destruct (Hall "source") as [v2 ->]; [cbn; tauto|].
  destruct (Hall "bit_depth") as [v3 ->]; [cbn; tauto|].
  destruct (Hall "sample_format") as [v4 ->]; [cbn; tauto|].
  reflexivity.
Qed.

Lemma band_step_incomplete band band_parameters :
  missing_fields_of band <> [] ->
  band_step band band_parameters
  = Raise (ValueError_message
             ("Each band must contain " +:+ join ", " (missing_fields_of band)
              +:+ " fields")).
Proof.
  intros Hsome. unfold band_step.
  destruct (missing_fields_of band) as [|field rest]; [contradiction|reflexivity].
Qed.

(** The loop over the bands raises at the first band that lacks a field. *)
Lemma bands_loop_raises descriptors : forall band_parameters,
  (exists band, In band descriptors /\ missing_fields_of band <> []) ->
  exists band,
    In band descriptors /\ missing_fields_of band <> []
    /\ for_each band_step descriptors band_parameters
       = Raise (ValueError_message
                  ("Each band must contain " +:+ join ", " (missing_fields_of band)
                   +:+ " fields")).
Proof.
  induction descriptors as [|band0 descriptors IH]; intros band_parameters (band & Hin & Hmiss);
    [destruct Hin|].
  cbn [for_each].
  destruct (missing_fields_of band0) as [|field rest] eqn:Hband0.
  - destruct Hin as [->|Hin]; [congruence|].
    pose proof (band_step_complete band0 band_parameters Hband0) as Hok.
    destruct (band_step band0 band_parameters) as [band_parameters'|]; [|discriminate].
    rewrite bind_Ok.
    destruct (IH band_parameters' (ex_intro _ band (conj Hin Hmiss)))
      as (band' & Hin' & Hmiss' & Hraise).
    exists band'. split; [by right|]. by split.
  - exists band0. split; [by left|]. split; [congruence|].
    rewrite band_step_incomplete by congruence. reflexivity.
Qed.

End CreateCollection.

(** C8. When some band descriptor lacks a required field,
    [create_byoc_collection] raises a ValueError whose message is built from
    the missing fields of a band that lacks some, each of which occurs in
    it and is a required field the band does not have, and the Ingestor is
    as it was: no request has been sent to the catalog and no collection is
    stored. *)
Theorem create_collection_rejects_incomplete_band (self : Ingestor)
  (collection_name s3_bucket_name : string) (storage_id : option string)
  (descriptors : list (gmap string pyval)) (incomplete : gmap string pyval) :
  In incomplete descriptors ->
  missing_fields_of incomplete <> [] ->
  exists band,
    In band descriptors
    /\ missing_fields_of band <> []
    /\ create_byoc_collection self collection_name s3_bucket_name storage_id
         (Some descriptors)
       = (self, Raise (ValueError_message
                         ("Each band must contain "
                          +:+ join ", " (missing_fields_of band) +:+ " fields")))
    /\ (forall field, In field (missing_fields_of band) ->
          In field required_fields /\ band !! field = None
          /\ occurs_in field ("Each band must contain "
                              +:+ join ", " (missing_fields_of band) +:+ " fields"))
    /\ requests (byoc_client
                   (create_byoc_collection self collection_name s3_bucket_name
                      storage_id (Some descriptors)).1)
       = requests (byoc_client self).
Proof.
  intros Hin Hmiss.
  destruct (bands_loop_raises descriptors ∅ (ex_intro _ incomplete (conj Hin Hmiss)))
    as (band & Hband & Hmissing & Hraise).
  assert (create_byoc_collection self collection_name s3_bucket_name storage_id
            (Some descriptors)
          = (self, Raise (ValueError_message
                            ("Each band must contain "
                             +:+ join ", " (missing_fields_of band) +:+ " fields"))))
    as Hcreate.
  { unfold create_byoc_collection, band_config_of. by rewrite Hraise, bind_Raise. }
  exists band. split; [exact Hband|]. split; [exact Hmissing|].
  split; [exact Hcreate|]. split; [|by rewrite Hcreate].
  intros field Hfield. pose proof Hfield as Hfield'.
  apply missing_fields_of_In in Hfield' as [Hreq Hnone].
  split; [exact Hreq|]. split; [exact Hnone|]. by apply occurs_in_message.
Qed.

Lemma create_collection_rejects_incomplete_band_witness :
  In band_without_bit_depth [complete_band; band_without_bit_depth]
  /\ missing_fields_of band_without_bit_depth <> []
  /\ requests (byoc_client
                 (create_byoc_collection (ingestor_with no_catalog []) "S2" "bucket"
                    (Some "eodata") (Some [complete_band; band_without_bit_depth])).1)
     = [].
Proof.
  assert (In band_without_bit_depth [complete_band; band_without_bit_depth]) as Hin
    by (right; left; reflexivity).
  assert (missing_fields_of band_without_bit_depth <> []) as Hmiss
    by (vm_compute; discriminate).
  split; [exact Hin|]. split; [exact Hmiss|].
  destruct (create_collection_rejects_incomplete_band (ingestor_with no_catalog [])
              "S2" "bucket" (Some "eodata") [complete_band; band_without_bit_depth]
              band_without_bit_depth Hin Hmiss)
    as (band & _ & _ & _ & _ & Hrequests).
  exact Hrequests.
Defined.

Example create_collection_missing_bit_depth :
  create_byoc_collection (ingestor_with no_catalog []) "S2" "bucket" (Some "eodata")
    (Some [complete_band; band_without_bit_depth])
  = (ingestor_with no_catalog [],
     Raise (ValueError_message "Each band must contain bit_depth fields")).
Proof. vm_compute. reflexivity. Qed.

Example create_collection_complete_bands :
  requests (byoc_client
              (create_byoc_collection (ingestor_with no_catalog []) "S2" "bucket" None
                 (Some [complete_band])).1)
  = [CreateCollection
       {| name := "S2"; s3_bucket := "bucket";
          additional_data :=
            Some {| bands := Some {[ VStr "B04" :=
                                       {| source := VStr "B04"; band_index := 1;
                                          bit_depth := VInt 16;
                                          sample_format := VStr "UINT" |} ]};
                    other_data := None |} |}].
Proof. vm_compute. reflexivity. Qed.

(** * Beyond the claims *)

(** ** Splitting and joining *)

Section SplitJoin.

Lemma drop_chars_0 s : drop_chars O s = s.
Proof. by destruct s. Qed.

Lemma startswith_drop s p :
  startswith s p = true -> s = p +:+ drop_chars (String.length p) s.
Proof.
  revert s. induction p as [|a p IH]; intros s Hs.
  - reflexivity.
  - destruct s as [|b s]; [discriminate|]. cbn in Hs.
    apply andb_prop in Hs as [Hab Hrest].
    apply Ascii.eqb_eq in Hab. subst b.
    change (String a s = String a (p +:+ drop_chars (String.length p) s)).
    by rewrite <- (IH s Hrest).
Qed.

Lemma split_scan_nonempty sep s : forall skip cur, split_scan sep s skip cur <> [].
Proof.
  induction s as [|c s IH]; intros skip cur; cbn [split_scan]; [discriminate|].
  destruct skip; [|apply IH].
  destruct (startswith (String c s) sep); [discriminate|apply IH].
Qed.

Lemma join_cons sep x l : l <> [] -> join sep (x :: l) = x +:+ sep +:+ join sep l.
Proof. by destruct l. Qed.


(** What the scan has still to read is what joining its pieces gives back. *)
Lemma join_split_scan sep s : sep <> "" -> forall skip cur,
  join sep (split_scan sep s skip cur) = cur +:+ drop_chars skip s.
Proof.
  intros Hsep. induction s as [|c s IH]; intros skip cur.
  - cbn [split_scan join]. destruct skip; cbn; by rewrite append_empty_r.
  - cbn [split_scan]. destruct skip as [|skip]; [|by rewrite IH].
    destruct (startswith (String c s) sep) eqn:Hstart.
    + rewrite join_cons by apply split_scan_nonempty. rewrite IH.
      destruct sep as [|a sep]; [contradiction|].
      cbn in Hstart. apply andb_prop in Hstart as [Hac Hrest].
      apply Ascii.eqb_eq in Hac. subst a.
      cbn [String.length Nat.pred drop_chars].
      change ("" +:+ drop_chars (String.length sep) s)
        with (drop_chars (String.length sep) s).
      change (String c sep +:+ drop_chars (String.length sep) s)
        with (String c (sep +:+ drop_chars (String.length sep) s)).
      by rewrite <- (startswith_drop s sep Hrest).
    + rewrite IH, drop_chars_0, append_assoc. reflexivity.
Qed.

(** [sep.join(s.split(sep)) == s] *)
Lemma join_split s sep parts : split s sep = Ok parts -> join sep parts = s.
Proof.
  unfold split. destruct sep as [|a sep]; [discriminate|].
  intros Heq. inversion Heq. by rewrite join_split_scan.
Qed.

Lemma split_nonempty s sep parts : split s sep = Ok parts -> parts <> [].
Proof.
  unfold split. destruct sep as [|a sep]; [discriminate|].
  intros Heq. inversion Heq. apply split_scan_nonempty.
Qed.

(** A string without "/" is its only segment. *)
Lemma split_scan_no_slash s : forall cur,
  contains_char "/" s = false -> split_scan "/" s O cur = [cur +:+ s].
Proof.
  induction s as [|c s IH]; intros cur Hno; cbn [split_scan].
  - by rewrite append_empty_r.
  - cbn [contains_char] in Hno. apply orb_false_elim in Hno as [Hc Hs].
    cbn [startswith]. rewrite Hc. cbn [andb].
    rewrite IH by exact Hs. by rewrite append_assoc.
Qed.

(** Replacing one piece changes the joined string at that piece only. *)
Lemma join_insert_shape sep parts : forall j, (j < length parts)%nat ->
  exists before after, forall x, join sep (<[j := x]> parts) = before +:+ x +:+ after.
Proof.
  induction parts as [|a parts IH]; intros j Hj; [cbn in Hj; lia|].
  destruct j as [|j].
  - destruct parts as [|b parts].
    + exists "", "". intros x. cbn. by rewrite append_empty_r.
    + exists "", (sep +:+ join sep (b :: parts)). intros x. reflexivity.
  - cbn [length] in Hj. destruct (IH j) as (before & after & Hshape); [lia|].
    exists (a +:+ sep +:+ before), after. intros x.
    change (<[S j := x]> (a :: parts)) with (a :: <[j := x]> parts).
    rewrite join_cons.
    + by rewrite Hshape, !append_assoc.
    + intros Hnil. apply (f_equal length) in Hnil.
      rewrite length_insert in Hnil. cbn in Hnil. lia.
Qed.

Lemma py_pos_lt n i k : py_pos n i = Some k -> (k < n)%nat.
Proof.
  unfold py_pos. destruct (Z.leb 0 i) eqn:Hi.
  - destruct (Z.ltb i (Z.of_nat n)) eqn:Hlt; [|discriminate].
    intros Heq. inversion Heq. lia.
  - destruct (Z.leb 0 (Z.of_nat n + i)) eqn:Hn; [|discriminate].
    intros Heq. inversion Heq. lia.
Qed.


End SplitJoin.

(** ** The shape of a canonical path *)

Section PathShape.

Variable bp : BandPosition.

(** What [byoc_path_of] computed when it returns. *)
Lemma byoc_path_of_Ok key cp :
  byoc_path_of bp key = Ok cp ->
  exists segments file_name parts j,
    split key "/" = Ok segments
    /\ getitem segments (bp_path bp) = Ok file_name
    /\ split file_name (bp_delimiter bp) = Ok parts
    /\ py_pos (length parts) (bp_position bp) = Some j
    /\ cp = join "/" (all_but_last segments) +:+ "/"
            +:+ join (bp_delimiter bp) (<[j := "(BAND)"]> parts).
Proof.
  unfold byoc_path_of. intros Hpath.
  apply bind_Ok_inv in Hpath as (new_file_name & Hname & Hpath).
  apply bind_Ok_inv in Hpath as (segments & Hsegs & Hpath).
  inversion Hpath as [Hcp]. clear Hpath.
  unfold new_file_name_of in Hname. rewrite Hsegs, bind_Ok in Hname.
  apply bind_Ok_inv in Hname as (file_name & Hfile & Hname).
  apply bind_Ok_inv in Hname as (parts & Hparts & Hname).
  apply bind_Ok_inv in Hname as (parts' & Hset & Hname).
  inversion Hname as [Hnew]. clear Hname.
  apply setitem_Ok_pos in Hset as (j & Hj & ->).
  exists segments, file_name, parts, j. by repeat split.
Qed.

Lemma derive_Ok_path strptime stp key cp t :
  derive strptime stp bp key = Ok (cp, t) -> byoc_path_of bp key = Ok cp.
Proof.
  unfold derive. intros Hd.
  apply bind_Ok_inv in Hd as (t' & _ & Hd).
  apply bind_Ok_inv in Hd as (cp' & Hpath & Hd). by inversion Hd; subst.
Qed.

Lemma startswith_empty s : startswith s "" = true.
Proof. by destruct s. Qed.



(** The file name is rebuilt from its pieces with one of them replaced. *)
Lemma new_file_name_shape file_name parts j :
  split file_name (bp_delimiter bp) = Ok parts ->
  py_pos (length parts) (bp_position bp) = Some j ->
  exists before band after,
    parts !! j = Some band
    /\ file_name = before +:+ band +:+ after
    /\ join (bp_delimiter bp) (<[j := "(BAND)"]> parts)
       = before +:+ "(BAND)" +:+ after.
Proof.
  intros Hparts Hj. apply py_pos_lt in Hj.
  destruct (lookup_lt_is_Some_2 parts j Hj) as [band Hband].
  destruct (join_insert_shape (bp_delimiter bp) parts j Hj) as (before & after & Hshape).
  exists before, band, after. split; [exact Hband|]. split; [|apply Hshape].
  rewrite <- (Hshape band), (list_insert_id _ _ _ Hband).
  symmetry. by apply join_split.
Qed.

End PathShape.



(** X2. A key without "/" has no directory part, yet its canonical path
    starts with "/": the key is its only segment and so the file name, and
    the canonical path is "/" followed by the key with its band token, the
    configured piece of the key split by the band delimiter, replaced by
    "(BAND)". *)
Theorem canonical_path_of_key_without_slash (strptime : Strptime)
  (stp : SensingTimePosition) (bp : BandPosition) (key cp : string) (t : datetime) :
  derive strptime stp bp key = Ok (cp, t) ->
  contains_char "/" key = false ->
  exists before band after parts j,
    split key (bp_delimiter bp) = Ok parts
    /\ py_pos (length parts) (bp_position bp) = Some j
    /\ parts !! j = Some band
    /\ key = join (bp_delimiter bp) parts
    /\ cp = "/" +:+ join (bp_delimiter bp) (<[j := "(BAND)"]> parts)
    /\ key = before +:+ band +:+ after
    /\ cp = "/" +:+ before +:+ "(BAND)" +:+ after.
Proof.
  intros Hd Hslash.
  apply derive_Ok_path, byoc_path_of_Ok in Hd
    as (segments & file_name & parts & j & Hsegs & Hfile & Hparts & Hj & ->).
  inversion Hsegs as [Hscan]. rewrite split_scan_no_slash in Hscan by exact Hslash.
  subst segments. clear Hsegs.
  assert (file_name = key) as ->.
  { apply getitem_Ok_pos in Hfile as (k & Hk & Hlookup).
    apply py_pos_lt in Hk. destruct k as [|k]; [|cbn in Hk; lia].
    cbn in Hlookup. by inversion Hlookup. }
  destruct (new_file_name_shape bp key parts j Hparts Hj)
    as (before & band & after & Hband & Hname & Hnew).
  exists before, band, after, parts, j.
  split; [exact Hparts|]. split; [exact Hj|]. split; [exact Hband|].
  split; [symmetry; by apply join_split|].
  rewrite ?split_scan_no_slash by exact Hslash.
  split; [reflexivity|]. split; [exact Hname|]. rewrite Hnew. reflexivity.
Qed.

Lemma canonical_path_of_key_without_slash_witness :
  derive numeric_strptime
    {| st_path := 0; st_delimiter := "_"; st_position := 1; st_format := "%Y%m%d" |}
    band_first_in_last_segment "B04_20230615_10m.tif"
  = Ok ("/(BAND)_20230615_10m.tif", Datetime 2023 6 15 0 0 0)
  /\ exists band parts j,
       split "B04_20230615_10m.tif" "_" = Ok parts
       /\ parts !! j = Some band
       /\ "/(BAND)_20230615_10m.tif" = "/" +:+ join "_" (<[j := "(BAND)"]> parts).
Proof.
  assert (derive numeric_strptime
            {| st_path := 0; st_delimiter := "_"; st_position := 1;
               st_format := "%Y%m%d" |}
            band_first_in_last_segment "B04_20230615_10m.tif"
          = Ok ("/(BAND)_20230615_10m.tif", Datetime 2023 6 15 0 0 0)) as Hd
    by reflexivity.
  split; [exact Hd|].
  destruct (canonical_path_of_key_without_slash _ _ _ _ _ _ Hd)
    as (before & band & after & parts & j & Hparts & _ & Hband & _ & Hcp & _);
    [reflexivity|].
  exists band, parts, j. by repeat split.
Defined.

(** ** More on build_byoc_tiles *)

Section BuildMore.

Variable strptime : Strptime.
Variable stp : SensingTimePosition.
Variable bp : BandPosition.

Lemma for_each_app {A S : Type} (body : A -> S -> result S) (l1 l2 : list A) :
  forall s, for_each body (l1 ++ l2) s = (s' ← for_each body l1 s; for_each body l2 s').
Proof.
  induction l1 as [|x l1 IH]; intros s; [reflexivity|].
  cbn [app for_each]. destruct (body x s) as [s1|e]; [|reflexivity].
  rewrite !bind_Ok. apply IH.
Qed.

(** The loop from any accumulated tiles. *)
Lemma build_loop_from keys acc :
  for_each (build_step strptime stp bp) keys acc
  = match derive_all strptime stp bp keys with
    | Ok derived => Ok (acc ++ first_occurrences (map fst acc) derived)
    | Raise e => Raise e
    end.
Proof.
  rewrite build_loop_derive_all.
  destruct (derive_all strptime stp bp keys); [|reflexivity].
  by rewrite dedup_loop_first_occurrences.
Qed.

Lemma build_Ok_inv self tiles :
  build_byoc_tiles strptime self stp bp = Ok tiles ->
  exists derived,
    derive_all strptime stp bp (file_list self) = Ok derived
    /\ tiles = first_occurrences [] derived.
Proof.
  unfold build_byoc_tiles. rewrite build_loop_from.
  destruct (derive_all strptime stp bp (file_list self)) as [derived|]; [|discriminate].
  intros Heq. inversion Heq. by exists derived.
Qed.

Lemma build_is_ok self :
  is_ok (build_byoc_tiles strptime self stp bp)
  = is_ok (derive_all strptime stp bp (file_list self)).
Proof.
  unfold build_byoc_tiles. rewrite build_loop_from.
  by destruct (derive_all strptime stp bp (file_list self)).
Qed.

Lemma derive_all_length keys : forall derived,
  derive_all strptime stp bp keys = Ok derived -> length derived = length keys.
Proof.
  induction keys as [|key keys IH]; intros derived Hall.
  - by inversion Hall.
  - cbn [derive_all] in Hall.
    apply bind_Ok_inv in Hall as (tile & _ & Hall).
    apply bind_Ok_inv in Hall as (tiles & Hrest & Heq).
    inversion Heq. cbn. by rewrite (IH tiles Hrest).
Qed.

Lemma derive_all_tile_key keys derived tile :
  derive_all strptime stp bp keys = Ok derived -> In tile derived ->
  exists key, In key keys /\ derive strptime stp bp key = Ok tile.
Proof.
  intros Hall Hin. apply list_elem_of_In, list_elem_of_lookup in Hin as [i Hi].
  destruct (derive_all_lookup strptime stp bp keys derived i tile Hall Hi)
    as (key & Hkey & Hd).
  exists key. split; [|exact Hd].
  apply list_elem_of_In, list_elem_of_lookup. by exists i.
Qed.

Lemma build_tile_key self tiles tile :
  build_byoc_tiles strptime self stp bp = Ok tiles -> In tile tiles ->
  exists key, In key (file_list self) /\ derive strptime stp bp key = Ok tile.
Proof.
  intros Hbuild Hin. apply build_Ok_inv in Hbuild as (derived & Hall & ->).
  apply (derive_all_tile_key _ derived); [exact Hall|].
  apply list_elem_of_In. eapply elem_of_sublist; [by apply list_elem_of_In|].
  apply first_occurrences_sublist.
Qed.

Lemma first_occurrences_distinct {B} (l : list (string * B)) : forall seen,
  (forall p, In p (map fst l) -> ~ In p seen) -> NoDup (map fst l) ->
  first_occurrences seen l = l.
Proof.
  induction l as [|tile l IH]; intros seen Hfresh Hnd; [reflexivity|].
  cbn [first_occurrences]. cbn [map] in Hnd.
  destruct (existsb (String.eqb (fst tile)) seen) eqn:Hseen.
  - apply existsb_eqb_In in Hseen. exfalso. apply (Hfresh (fst tile)); [by left|done].
  - f_equal. apply IH; [|by apply NoDup_cons_1_2 in Hnd].
    intros p Hp Hin. apply in_app_iff in Hin as [Hin|[<-|[]]].
    + apply (Hfresh p); [by right|done].
    + apply NoDup_cons_1_1 in Hnd. apply Hnd. by apply list_elem_of_In.
Qed.

End BuildMore.

(** X3. Every tile that [build_byoc_tiles] returns has the placeholder
    "(BAND)" in its path. *)
Theorem every_tile_path_has_placeholder (strptime : Strptime) (self : Ingestor)
  (stp : SensingTimePosition) (bp : BandPosition) (tiles : list (string * datetime)) :
  build_byoc_tiles strptime self stp bp = Ok tiles ->
  forall tile, In tile tiles -> occurs_in "(BAND)" (fst tile).
Proof.
  intros Hbuild [cp t] Hin.
  destruct (build_tile_key strptime stp bp self tiles (cp, t) Hbuild Hin)
    as (key & _ & Hd).
  apply derive_Ok_path, byoc_path_of_Ok in Hd
    as (segments & file_name & parts & j & _ & _ & Hparts & Hj & ->).
  destruct (new_file_name_shape bp file_name parts j Hparts Hj)
    as (before & band & after & _ & _ & Hnew).
  cbn [fst]. rewrite Hnew.
  exists (join "/" (all_but_last segments) +:+ "/" +:+ before), after.
  by rewrite !append_assoc.
Qed.

Lemma every_tile_path_has_placeholder_witness :
  build_byoc_tiles numeric_strptime
    (ingestor_with no_catalog ["S2/B04_10m/20230615.tif"])
    date_in_file_name band_first_in_folder
  = Ok [("S2/B04_10m/(BAND)_10m", Datetime 2023 6 15 0 0 0)]
  /\ occurs_in "(BAND)" "S2/B04_10m/(BAND)_10m".
Proof.
  assert (build_byoc_tiles numeric_strptime
            (ingestor_with no_catalog ["S2/B04_10m/20230615.tif"])
            date_in_file_name band_first_in_folder
          = Ok [("S2/B04_10m/(BAND)_10m", Datetime 2023 6 15 0 0 0)]) as Hbuild
    by reflexivity.
  split; [exact Hbuild|].
  apply (every_tile_path_has_placeholder _ _ _ _ _ Hbuild
           ("S2/B04_10m/(BAND)_10m", Datetime 2023 6 15 0 0 0)).
  left. reflexivity.
Defined.

(** X4. With an empty sensing-time or band delimiter no key derives, so the
    build of a file list that is not empty always raises; with an empty
    sensing-time delimiter it raises the error of the first key, which is
    an IndexError or the empty-separator ValueError. *)
Theorem empty_delimiter_fails_every_build (strptime : Strptime) (self : Ingestor)
  (stp : SensingTimePosition) (bp : BandPosition) :
  st_delimiter stp = "" \/ bp_delimiter bp = "" ->
  file_list self <> [] ->
  is_ok (build_byoc_tiles strptime self stp bp) = false
  /\ (st_delimiter stp = "" ->
      build_byoc_tiles strptime self stp bp = Raise IndexError
      \/ build_byoc_tiles strptime self stp bp = Raise ValueError_empty_separator).
Proof.
  intros Hempty Hfiles.
  destruct (file_list self) as [|key rest] eqn:Hlist; [contradiction|].
  assert (st_delimiter stp = "" ->
          derive strptime stp bp key = Raise IndexError
          \/ derive strptime stp bp key = Raise ValueError_empty_separator) as Hst.
  { intros Hd. unfold derive, sensing_time_of, date_token.
    change (split key "/") with (Ok (split_scan "/" key O "")). rewrite bind_Ok.
    destruct (getitem _ (st_path stp)) as [folder_name|e] eqn:Hget.
    - right. rewrite bind_Ok, Hd. reflexivity.
    - left. unfold getitem in Hget.
      destruct (py_pos _ _); [destruct (_ !! _)|]; by inversion Hget. }
  assert (is_ok (derive strptime stp bp key) = false) as Hkey.
  { destruct Hempty as [Hd|Hd]; [by destruct (Hst Hd) as [-> | ->]|].
    unfold derive. destruct (sensing_time_of strptime stp key); [|reflexivity].
    rewrite bind_Ok. unfold byoc_path_of, new_file_name_of.
    change (split key "/") with (Ok (split_scan "/" key O "")). rewrite bind_Ok.
    destruct (getitem _ (bp_path bp)) as [file_name|]; [|reflexivity].
    rewrite bind_Ok, Hd. reflexivity. }
  split.
  - rewrite build_is_ok, Hlist. cbn [derive_all].
    by destruct (derive strptime stp bp key).
  - intros Hd. unfold build_byoc_tiles. rewrite build_loop_from, Hlist.
    cbn [derive_all]. by destruct (Hst Hd) as [-> | ->]; [left|right].
Qed.

Lemma empty_delimiter_fails_every_build_witness :
  st_delimiter (date_folder "") = ""
  /\ is_ok (build_byoc_tiles numeric_strptime
              (ingestor_with no_catalog ["S2/20230615/B04_10m.tif"])
              (date_folder "") band_first_in_last_segment) = false.
Proof.
  split; [reflexivity|].
  apply (empty_delimiter_fails_every_build numeric_strptime
           (ingestor_with no_catalog ["S2/20230615/B04_10m.tif"])
           (date_folder "") band_first_in_last_segment).
  - left. reflexivity.
  - discriminate.
Defined.

Lemma py_pos_first_or_last n i :
  (0 < n)%nat -> i = 0 \/ i = -1 -> exists k, py_pos n i = Some k.
Proof.
  intros Hn [-> | ->]; unfold py_pos; cbn [Z.leb Z.compare].
  - destruct (Z.ltb 0 (Z.of_nat n)) eqn:Hlt; [by eexists|lia].
  - destruct (Z.leb 0 (Z.of_nat n + -1)) eqn:Hle; [by eexists|lia].
Qed.

Lemma getitem_first_or_last {A} (l : list A) i :
  l <> [] -> i = 0 \/ i = -1 -> exists x, getitem l i = Ok x.
Proof.
  intros Hne Hi.
  assert (0 < length l)%nat as Hlen by (destruct l; [contradiction|cbn; lia]).
  destruct (py_pos_first_or_last _ i Hlen Hi) as [k Hk].
  unfold getitem. rewrite Hk.
  destruct (lookup_lt_is_Some_2 l k (py_pos_lt _ _ _ Hk)) as [x ->]. by exists x.
Qed.

Lemma split_Ok s sep : sep <> "" -> exists parts, split s sep = Ok parts /\ parts <> [].
Proof.
  intros Hsep. destruct sep as [|a sep]; [contradiction|].
  exists (split_scan (String a sep) s O ""). split; [reflexivity|].
  apply split_scan_nonempty.
Qed.

(** X5. When the segment and piece indices are 0 or -1 and the delimiters
    are not empty, no key is out of range: the date token and the canonical
    path exist for every key, and [derive] fails only if [strptime] rejects
    the token, with the time-data ValueError. *)
Theorem first_or_last_indices_fail_only_on_date (strptime : Strptime)
  (stp : SensingTimePosition) (bp : BandPosition) (key : string) :
  st_path stp = 0 \/ st_path stp = -1 ->
  st_position stp = 0 \/ st_position stp = -1 ->
  bp_path bp = 0 \/ bp_path bp = -1 ->
  bp_position bp = 0 \/ bp_position bp = -1 ->
  st_delimiter stp <> "" ->
  bp_delimiter bp <> "" ->
  exists token cp,
    date_token stp key = Ok token
    /\ byoc_path_of bp key = Ok cp
    /\ derive strptime stp bp key
       = match strptime token (st_format stp) with
         | Some t => Ok (cp, t)
         | None => Raise (ValueError_time_data token (st_format stp))
         end.
Proof.
  intros Hsp Hspos Hbp Hbpos Hsd Hbd.
  destruct (split_Ok key "/") as (segments & Hsegs & Hne); [discriminate|].
  destruct (getitem_first_or_last segments _ Hne Hsp) as [folder_name Hfolder].
  destruct (split_Ok folder_name _ Hsd) as (sparts & Hsparts & Hsne).
  destruct (getitem_first_or_last sparts _ Hsne Hspos) as [token Htoken].
  destruct (getitem_first_or_last segments _ Hne Hbp) as [file_name Hfile].
  destruct (split_Ok file_name _ Hbd) as (parts & Hparts & Hpne).
  assert (0 < length parts)%nat as Hlen by (destruct parts; [contradiction|cbn; lia]).
  destruct (py_pos_first_or_last _ _ Hlen Hbpos) as [j Hj].
  assert (date_token stp key = Ok token) as Hdate.
  { unfold date_token. by rewrite Hsegs, bind_Ok, Hfolder, bind_Ok, Hsparts, bind_Ok. }
  assert (byoc_path_of bp key
          = Ok (join "/" (all_but_last segments) +:+ "/"
                +:+ join (bp_delimiter bp) (<[j := "(BAND)"]> parts))) as Hpath.
  { unfold byoc_path_of, new_file_name_of.
    rewrite Hsegs, !bind_Ok, Hfile, bind_Ok, Hparts, bind_Ok.
    by rewrite (setitem_Some _ _ j) by exact Hj. }
  eexists token, _. split; [exact Hdate|]. split; [exact Hpath|].
  unfold derive, sensing_time_of. rewrite Hdate, bind_Ok.
  destruct (strptime token (st_format stp)); [|reflexivity].
  by rewrite bind_Ok, Hpath.
Qed.

Lemma first_or_last_indices_fail_only_on_date_witness :
  exists token cp,
    date_token {| st_path := -1; st_delimiter := "."; st_position := 0;
                  st_format := "%Y%m%d" |} "B04_10m/20230615.tif" = Ok token
    /\ byoc_path_of {| bp_path := 0; bp_delimiter := "_"; bp_position := 0 |}
         "B04_10m/20230615.tif" = Ok cp.
Proof.
  destruct (first_or_last_indices_fail_only_on_date numeric_strptime
              {| st_path := -1; st_delimiter := "."; st_position := 0;
                 st_format := "%Y%m%d" |}
              {| bp_path := 0; bp_delimiter := "_"; bp_position := 0 |}
              "B04_10m/20230615.tif")
    as (token & cp & Hdate & Hpath & _);
    try (left; reflexivity); try (right; reflexivity); try discriminate.
  exists token, cp. by split.
Defined.

(** X6. Keys added at the end of the file list never change or reorder the
    tiles built from the keys before them: the build of the longer list, when
    it succeeds, is the build of the shorter list followed by tiles whose
    paths are new. *)
Theorem build_of_longer_list_extends (strptime : Strptime) (self self' : Ingestor)
  (stp : SensingTimePosition) (bp : BandPosition) (more_keys : list string)
  (tiles' : list (string * datetime)) :
  file_list self' = file_list self ++ more_keys ->
  build_byoc_tiles strptime self' stp bp = Ok tiles' ->
  exists tiles more,
    build_byoc_tiles strptime self stp bp = Ok tiles
    /\ tiles' = tiles ++ more
    /\ (forall tile, In tile more -> ~ In (fst tile) (map fst tiles))
    /\ (forall tile, In tile more ->
          exists key, In key more_keys /\ derive strptime stp bp key = Ok tile).
Proof.
  intros Hfiles. unfold build_byoc_tiles. rewrite Hfiles, for_each_app.
  destruct (for_each (build_step strptime stp bp) (file_list self) [])
    as [tiles|e]; [|discriminate].
  rewrite bind_Ok, build_loop_from.
  destruct (derive_all strptime stp bp more_keys) as [derived|] eqn:Hall; [|discriminate].
  intros Heq. inversion Heq as [Htiles]. clear Heq.
  exists tiles, (first_occurrences (map fst tiles) derived).
  split; [reflexivity|]. split; [reflexivity|]. split.
  - intros tile Hin. by apply first_occurrences_In in Hin as [Hnot _].
  - intros tile Hin. apply (derive_all_tile_key strptime stp bp _ derived); [exact Hall|].
    apply list_elem_of_In. eapply elem_of_sublist; [by apply list_elem_of_In|].
    apply first_occurrences_sublist.
Qed.

Lemma build_of_longer_list_extends_witness :
  exists tiles more,
    build_byoc_tiles numeric_strptime
      (ingestor_with no_catalog ["S2/20230615/B04_10m.tif"])
      (date_folder "_") band_first_in_last_segment = Ok tiles
    /\ [("S2/20230615/(BAND)_10m.tif", Datetime 2023 6 15 0 0 0);
        ("S2/20230616/(BAND)_10m.tif", Datetime 2023 6 16 0 0 0)] = tiles ++ more.
Proof.
  destruct (build_of_longer_list_extends numeric_strptime
              (ingestor_with no_catalog ["S2/20230615/B04_10m.tif"])
              (ingestor_with no_catalog ["S2/20230615/B04_10m.tif";
                                         "S2/20230615/B08_10m.tif";
                                         "S2/20230616/B04_10m.tif"])
              (date_folder "_") band_first_in_last_segment
              ["S2/20230615/B08_10m.tif"; "S2/20230616/B04_10m.tif"]
              [("S2/20230615/(BAND)_10m.tif", Datetime 2023 6 15 0 0 0);
               ("S2/20230616/(BAND)_10m.tif", Datetime 2023 6 16 0 0 0)])
    as (tiles & more & Hbuild & Heq & _); [reflexivity|vm_compute; reflexivity|].
  exists tiles, more. by split.
Defined.

(** X7. A key that occurs again later in the file list, as [list_tiles] can
    store it, changes nothing: the build with the repetition is the build
    without it, tiles and errors alike. *)
Theorem repeated_key_changes_nothing (strptime : Strptime) (self self' : Ingestor)
  (stp : SensingTimePosition) (bp : BandPosition)
  (keys1 keys2 keys3 : list string) (key : string) :
  file_list self = keys1 ++ key :: keys2 ++ keys3 ->
  file_list self' = keys1 ++ key :: keys2 ++ key :: keys3 ->
  build_byoc_tiles strptime self' stp bp = build_byoc_tiles strptime self stp bp.
Proof.
  intros Hfiles Hfiles'. unfold build_byoc_tiles. rewrite Hfiles, Hfiles'.
  replace (keys1 ++ key :: keys2 ++ key :: keys3)
    with ((keys1 ++ key :: keys2) ++ key :: keys3)
    by (by rewrite <- app_assoc).
  replace (keys1 ++ key :: keys2 ++ keys3) with ((keys1 ++ key :: keys2) ++ keys3)
    by (by rewrite <- app_assoc).
  rewrite (for_each_app _ (keys1 ++ key :: keys2) (key :: keys3)).
  rewrite (for_each_app _ (keys1 ++ key :: keys2) keys3).
  rewrite (build_loop_from strptime stp bp (keys1 ++ _) []).
  destruct (derive_all strptime stp bp (keys1 ++ key :: keys2)) as [derived|e] eqn:Hall;
    [|reflexivity].
  rewrite !bind_Ok. cbn [app map for_each].
  destruct (derive_all_In strptime stp bp _ derived key Hall) as (tile & Hd & Hin).
  { apply in_app_iff. right. by left. }
  assert (build_step strptime stp bp key (first_occurrences [] derived)
          = Ok (first_occurrences [] derived)) as ->; [|by rewrite bind_Ok].
  unfold build_step. rewrite Hd, bind_Ok.
  assert (path_in (fst tile) (first_occurrences [] derived) = true) as ->; [|done].
  apply existsb_eqb_In.
  destruct (first_occurrences_paths derived [] (fst tile)) as [[]|Hkept]; [|done].
  apply in_map_iff. by exists tile.
Qed.

Lemma repeated_key_changes_nothing_witness :
  build_byoc_tiles numeric_strptime
    (ingestor_with no_catalog ["S2/20230615/B04_10m.tif"; "S2/20230616/B04_10m.tif";
                               "S2/20230615/B04_10m.tif"])
    (date_folder "_") band_first_in_last_segment
  = build_byoc_tiles numeric_strptime
      (ingestor_with no_catalog ["S2/20230615/B04_10m.tif"; "S2/20230616/B04_10m.tif"])
      (date_folder "_") band_first_in_last_segment.
Proof.
  apply (repeated_key_changes_nothing numeric_strptime _ _ _ _
           [] ["S2/20230616/B04_10m.tif"] [] "S2/20230615/B04_10m.tif");
    reflexivity.
Defined.

(** X8. A successful build returns at most one tile per key; when the
    canonical paths derived from the keys are pairwise distinct it returns
    exactly the derived tiles, one per key, in the order of the keys. *)
Theorem build_returns_at_most_one_tile_per_key (strptime : Strptime)
  (self : Ingestor) (stp : SensingTimePosition) (bp : BandPosition)
  (tiles : list (string * datetime)) :
  build_byoc_tiles strptime self stp bp = Ok tiles ->
  exists derived,
    derive_all strptime stp bp (file_list self) = Ok derived
    /\ length derived = length (file_list self)
    /\ (length tiles <= length (file_list self))%nat
    /\ (NoDup (map fst derived) -> tiles = derived).
Proof.
  intros Hbuild.
  apply build_Ok_inv in Hbuild as (derived & Hall & ->).
  exists derived. split; [exact Hall|].
  pose proof (derive_all_length strptime stp bp _ _ Hall) as Hlen.
  split; [exact Hlen|]. split.
  - rewrite <- Hlen. apply sublist_length, first_occurrences_sublist.
  - intros Hnd. apply first_occurrences_distinct; [|exact Hnd]. by intros p _ [].
Qed.

Lemma build_returns_at_most_one_tile_per_key_witness :
  exists derived,
    derive_all numeric_strptime (date_folder "_") band_first_in_last_segment
      ["S2/20230615/B04_10m.tif"; "S2/20230615/B08_10m.tif"] = Ok derived
    /\ length derived = 2%nat.
Proof.
  destruct (build_returns_at_most_one_tile_per_key numeric_strptime
              (ingestor_with no_catalog ["S2/20230615/B04_10m.tif";
                                         "S2/20230615/B08_10m.tif"])
              (date_folder "_") band_first_in_last_segment
              [("S2/20230615/(BAND)_10m.tif", Datetime 2023 6 15 0 0 0)])
    as (derived & Hall & Hlen & _); [vm_compute; reflexivity|].
  exists derived. by split.
Defined.

(** ** More on ingest_tiles_to_collection *)

(** X10. With a created collection whose catalog has no tile yet, a call
    whose build succeeds returns normally and sends, after the requests
    already sent, exactly one tile-creation request per built tile, in build
    order, for the stored collection: at most one per key of the file list
    and no two for the same path. *)
Theorem ingest_on_empty_catalog_requests_every_tile (strptime : Strptime)
  (self : Ingestor) (stp : SensingTimePosition) (bp : BandPosition)
  (created : ByocCollection) (built : list (string * datetime)) :
  byoc_collection self = Some created ->
  iter_tiles (byoc_client self) (Some created) = [] ->
  build_byoc_tiles strptime self stp bp = Ok built ->
  let out := ingest_tiles_to_collection strptime self stp bp in
  out.2 = Ok tt
  /\ requests (byoc_client out.1)
     = requests (byoc_client self) ++ tile_requests (Some created) built
  /\ NoDup (map fst built)
  /\ (length built <= length (file_list self))%nat
  /\ file_list out.1 = file_list self
  /\ byoc_collection out.1 = Some created.
Proof.
  intros Hcreated Hempty Hbuild. cbn zeta.
  unfold ingest_tiles_to_collection. rewrite Hbuild, Hcreated, Hempty.
  rewrite submit_loop_empty_catalog. cbn [fst snd byoc_client requests file_list
                                          byoc_collection].
  split; [reflexivity|]. split; [reflexivity|].
  destruct (build_Ok_inv strptime stp bp self built Hbuild) as (derived & Hall & ->).
  split; [apply first_occurrences_NoDup|]. split; [|by split].
  rewrite <- (derive_all_length strptime stp bp _ _ Hall).
  apply sublist_length, first_occurrences_sublist.
Qed.

Lemma ingest_on_empty_catalog_requests_every_tile_witness :
  iter_tiles (catalog_with []) (Some s2_collection) = []
  /\ requests (byoc_client
       (ingest_tiles_to_collection numeric_strptime
          (ingestor_on (catalog_with [])
                       ["S2/20230615/B04_10m.tif"; "S2/20230615/B08_10m.tif"])
          (date_folder "_") band_first_in_last_segment).1)
     = [] ++ tile_requests (Some s2_collection)
               [("S2/20230615/(BAND)_10m.tif", Datetime 2023 6 15 0 0 0)].
Proof.
  split; [reflexivity|].
  apply (ingest_on_empty_catalog_requests_every_tile numeric_strptime
           (ingestor_on (catalog_with [])
                        ["S2/20230615/B04_10m.tif"; "S2/20230615/B08_10m.tif"])
           (date_folder "_") band_first_in_last_segment s2_collection
           [("S2/20230615/(BAND)_10m.tif", Datetime 2023 6 15 0 0 0)]);
    reflexivity.
Defined.

(** ** More on collection_tile_report *)

Section ReportMore.

Lemma report_of_lookups a b c d :
  report_of a b c d !!! "Ingested" = a /\ report_of a b c d !!! "Failed" = b
  /\ report_of a b c d !!! "Pending" = c /\ report_of a b c d !!! "Total" = d.
Proof. unfold report_of. repeat apply conj; reflexivity. Qed.

Lemma increment_ingested a b c d :
  increment "Ingested" (report_of a b c d) = report_of (a + 1) b c d.
Proof.
  unfold increment. destruct (report_of_lookups a b c d) as (-> & _).
  unfold report_of. by rewrite insert_insert_eq.
Qed.

Lemma increment_failed a b c d :
  increment "Failed" (report_of a b c d) = report_of a (b + 1) c d.
Proof.
  unfold increment. destruct (report_of_lookups a b c d) as (_ & -> & _).
  unfold report_of.
  rewrite (insert_insert_ne _ "Failed" "Ingested") by discriminate.
  by rewrite insert_insert_eq.
Qed.

Lemma increment_pending a b c d :
  increment "Pending" (report_of a b c d) = report_of a b (c + 1) d.
Proof.
  unfold increment. destruct (report_of_lookups a b c d) as (_ & _ & -> & _).
  unfold report_of.
  rewrite (insert_insert_ne _ "Pending" "Ingested") by discriminate.
  rewrite (insert_insert_ne _ "Pending" "Failed") by discriminate.
  by rewrite insert_insert_eq.
Qed.

(** The loop keeps the dictionary in its four-counter form. *)
Lemma report_loop_closed tiles : forall a b c d failed,
  fold_left report_step tiles (report_of a b c d, failed)
  = (report_of (a + count is_ingested tiles) (b + count is_failed tiles)
               (c + count is_pending tiles) d,
     failed ++ map failure_reason (List.filter is_failed tiles)).
Proof.
  induction tiles as [|t tiles IH]; intros a b c d failed.
  - cbn. unfold count. cbn. by rewrite !Z.add_0_r, app_nil_r.
  - cbn [fold_left]. rewrite !count_cons. unfold is_pending at 1.
    assert (report_step (report_of a b c d, failed) t
            = if is_ingested t then (report_of (a + 1) b c d, failed)
              else if is_failed t
                   then (report_of a (b + 1) c d, failed ++ [failure_reason t])
                   else (report_of a b (c + 1) d, failed)) as ->.
    { unfold report_step. fold (is_ingested t). fold (is_failed t).
      rewrite increment_ingested, increment_failed, increment_pending.
      reflexivity. }
    cbn [List.filter].
    destruct (is_ingested t) eqn:Hi.
    + assert (is_failed t = false) as ->.
      { unfold is_ingested, is_failed in *. apply String.eqb_eq in Hi.
        by rewrite Hi. }
      rewrite IH. cbn [negb andb]. f_equal. f_equal; lia.
    + destruct (is_failed t) eqn:Hf; rewrite IH; cbn [negb andb map].
      * rewrite <- app_assoc. f_equal. f_equal; lia.
      * f_equal. f_equal; lia.
Qed.

Lemma tile_report_closed tiles :
  tile_report tiles
  = (report_of (count is_ingested tiles) (count is_failed tiles)
               (count is_pending tiles) (Z.of_nat (length tiles)),
     map failure_reason (List.filter is_failed tiles)).
Proof.
  unfold tile_report.
  change (initial_report tiles) with (report_of 0 0 0 (Z.of_nat (length tiles))).
  by rewrite report_loop_closed.
Qed.

Lemma count_app {A} (p : A -> bool) l1 l2 : count p (l1 ++ l2) = count p l1 + count p l2.
Proof. unfold count. rewrite List.filter_app, length_app. lia. Qed.

Lemma filter_Permutation_bool {A} (p : A -> bool) l l' :
  Permutation l l' -> Permutation (List.filter p l) (List.filter p l').
Proof.
  induction 1 as [|x l l' Hperm IH|x y l|l l' l'' _ IH1 _ IH2]; cbn [List.filter].
  - constructor.
  - destruct (p x); [by constructor|done].
  - destruct (p x), (p y); try reflexivity. apply perm_swap.
  - by etrans.
Qed.

Lemma count_Permutation {A} (p : A -> bool) l l' :
  Permutation l l' -> count p l = count p l'.
Proof.
  intros Hperm. unfold count. f_equal.
  apply Permutation_length. by apply filter_Permutation_bool.
Qed.

End ReportMore.

(** X11. The report dictionary of [collection_tile_report] has exactly the
    four keys "Ingested", "Failed", "Pending" and "Total", and each counter
    is the number of tiles of that kind: Ingested counts the tiles whose
    status is exactly "INGESTED", Failed those whose status is exactly
    "FAILED", Pending all the others. *)
Theorem report_is_four_exact_counters (self : Ingestor) :
  let tiles := iter_tiles (byoc_client self) (byoc_collection self) in
  let report := (collection_tile_report self).1 in
  report = report_of (count is_ingested tiles) (count is_failed tiles)
                     (count is_pending tiles) (Z.of_nat (length tiles))
  /\ dom report = ({[ "Ingested"; "Failed"; "Pending"; "Total" ]} : gset string)
  /\ report !! "Ingested"
     = Some (count (fun tile => String.eqb (tile_status tile) "INGESTED") tiles).
Proof.
  cbn zeta. unfold collection_tile_report. rewrite tile_report_closed. cbn [fst].
  split; [reflexivity|]. split.
  - unfold report_of. rewrite !dom_insert_L, dom_empty_L. set_solver.
  - reflexivity.
Qed.

(** X12. Reports add up: the report of two batches of tiles one after the
    other has, for each of the four keys, the sum of the two reports'
    counters, and as failure reasons those of the first batch followed by
    those of the second. *)
Theorem report_of_concatenation_adds_up (tiles1 tiles2 : list ExistingTile) :
  let both := (tile_report (tiles1 ++ tiles2)).1 in
  let first := (tile_report tiles1).1 in
  let second := (tile_report tiles2).1 in
  both !!! "Ingested" = first !!! "Ingested" + second !!! "Ingested"
  /\ both !!! "Failed" = first !!! "Failed" + second !!! "Failed"
  /\ both !!! "Pending" = first !!! "Pending" + second !!! "Pending"
  /\ both !!! "Total" = first !!! "Total" + second !!! "Total"
  /\ (tile_report (tiles1 ++ tiles2)).2
     = (tile_report tiles1).2 ++ (tile_report tiles2).2.
Proof.
  cbn zeta. rewrite !tile_report_closed. cbn [fst snd].
  destruct (report_of_lookups (count is_ingested (tiles1 ++ tiles2))
              (count is_failed (tiles1 ++ tiles2))
              (count is_pending (tiles1 ++ tiles2))
              (Z.of_nat (length (tiles1 ++ tiles2)))) as (-> & -> & -> & ->).
  destruct (report_of_lookups (count is_ingested tiles1) (count is_failed tiles1)
              (count is_pending tiles1) (Z.of_nat (length tiles1)))
    as (-> & -> & -> & ->).
  destruct (report_of_lookups (count is_ingested tiles2) (count is_failed tiles2)
              (count is_pending tiles2) (Z.of_nat (length tiles2)))
    as (-> & -> & -> & ->).
  rewrite !count_app, length_app, List.filter_app, map_app.
  repeat split; lia.
Qed.

(** X13. The counters do not depend on the order in which the catalog
    returns the tiles: two Ingestors whose catalogs return the same tiles in
    different orders get the same report dictionary, and failure reasons
    that are a rearrangement of each other. *)
Theorem report_ignores_tile_order (self self' : Ingestor) :
  Permutation (iter_tiles (byoc_client self) (byoc_collection self))
              (iter_tiles (byoc_client self') (byoc_collection self')) ->
  (collection_tile_report self).1 = (collection_tile_report self').1
  /\ Permutation (collection_tile_report self).2 (collection_tile_report self').2.
Proof.
  intros Hperm. unfold collection_tile_report. rewrite !tile_report_closed.
  cbn [fst snd]. split.
  - rewrite (count_Permutation is_ingested _ _ Hperm),
            (count_Permutation is_failed _ _ Hperm),
            (count_Permutation is_pending _ _ Hperm).
    by rewrite (Permutation_length Hperm).
  - apply Permutation_map. by apply filter_Permutation_bool.
Qed.

Lemma report_ignores_tile_order_witness :
  (collection_tile_report
     (ingestor_with
        {| catalog := fun _ =>
             [{| tile_path := "a"; tile_status := "FAILED"; tile_additionalData := None |};
              {| tile_path := "b"; tile_status := "INGESTED";
                 tile_additionalData := None |}];
           requests := [] |} [])).1
  = (collection_tile_report
       (ingestor_with
          {| catalog := fun _ =>
               [{| tile_path := "b"; tile_status := "INGESTED";
                   tile_additionalData := None |};
                {| tile_path := "a"; tile_status := "FAILED";
                   tile_additionalData := None |}];
             requests := [] |} [])).1.
Proof.
  apply (report_ignores_tile_order
           (ingestor_with
              {| catalog := fun _ =>
                   [{| tile_path := "a"; tile_status := "FAILED";
                       tile_additionalData := None |};
                    {| tile_path := "b"; tile_status := "INGESTED";
                       tile_additionalData := None |}];
                 requests := [] |} [])
           (ingestor_with
              {| catalog := fun _ =>
                   [{| tile_path := "b"; tile_status := "INGESTED";
                       tile_additionalData := None |};
                    {| tile_path := "a"; tile_status := "FAILED";
                       tile_additionalData := None |}];
                 requests := [] |} [])).
  apply perm_swap.
Defined.

(** ** More on create_byoc_collection *)

Section CreateMore.

Lemma band_complete_entry band :
  missing_fields_of band = [] <-> is_Some (band_entry band).
Proof.
  unfold missing_fields_of, required_fields, band_entry. cbn [List.filter].
  destruct (band !! "name"), (band !! "source"), (band !! "bit_depth"),
    (band !! "sample_format"); split; intros H; try discriminate;
    try reflexivity; try (by eexists); by destruct H.
Qed.

Lemma band_step_entry band band_parameters band_name built :
  band_entry band = Some (band_name, built) ->
  band_step band band_parameters = Ok (<[band_name := built]> band_parameters).
Proof.
  intros Hentry.
  assert (missing_fields_of band = []) as Hnone
    by (apply band_complete_entry; by eexists).
  unfold band_step. rewrite Hnone. unfold dict_get. unfold band_entry in Hentry.
  destruct (band !! "name"), (band !! "source"), (band !! "bit_depth"),
    (band !! "sample_format"); try discriminate.
  by inversion Hentry.
Qed.

Lemma bands_loop_complete descriptors : forall band_parameters,
  (forall band, In band descriptors -> missing_fields_of band = []) ->
  for_each band_step descriptors band_parameters
  = Ok (bands_of descriptors band_parameters).
Proof.
  induction descriptors as [|band descriptors IH]; intros band_parameters Hall;
    [reflexivity|].
  cbn [for_each bands_of fold_left].
  destruct (proj1 (band_complete_entry band) (Hall band (or_introl eq_refl)))
    as [[band_name built] Hentry].
  rewrite (band_step_entry _ _ _ _ Hentry), bind_Ok, Hentry.
  apply IH. intros band' Hin. apply Hall. by right.
Qed.

Lemma bands_loop_is_ok descriptors band_parameters :
  is_ok (for_each band_step descriptors band_parameters) = true
  <-> forall band, In band descriptors -> missing_fields_of band = [].
Proof.
  split.
  - intros Hok band Hin.
    destruct (missing_fields_of band) as [|field rest] eqn:Hmiss; [reflexivity|].
    destruct (bands_loop_raises descriptors band_parameters) as (b & _ & _ & Hraise).
    { exists band. split; [exact Hin|]. by rewrite Hmiss. }
    by rewrite Hraise in Hok.
  - intros Hall. by rewrite bands_loop_complete.
Qed.





Lemma bands_of_entries l1 : forall l2 acc,
  map band_entry l1 = map band_entry l2 -> bands_of l1 acc = bands_of l2 acc.
Proof.
  induction l1 as [|b1 l1 IH]; intros [|b2 l2] acc Heq; try discriminate;
    [reflexivity|].
  cbn [map] in Heq. inversion Heq as [[Hhead Htail]].
  cbn [bands_of fold_left]. rewrite Hhead. apply (IH l2 _ Htail).
Qed.

(** The additional data the call builds, when the bands are complete. *)
Lemma band_config_of_complete storage_id descriptors :
  (forall band, In band descriptors -> missing_fields_of band = []) ->
  band_config_of storage_id (Some descriptors)
  = Ok (Some {| bands := Some (bands_of descriptors ∅);
                other_data := match storage_id with
                              | Some (String _ _ as sid) =>
                                  Some {["storageIdentifier" := sid]}
                              | _ => None
                              end |}).
Proof.
  intros Hall. unfold band_config_of.
  rewrite (bands_loop_complete _ _ Hall), bind_Ok.
  by destruct storage_id as [[|c sid]|].
Qed.

End CreateMore.

(** X14. [create_byoc_collection] succeeds exactly when every band
    descriptor has the four required fields (always when no band
    information is given). On success it sends one collection-creation
    request, after the earlier ones, for a collection with the given name
    and bucket, stores that collection, and keeps the file list; on failure
    the Ingestor is as it was. *)
Theorem create_collection_succeeds_iff_bands_complete (self : Ingestor)
  (collection_name s3_bucket_name : string) (storage_id : option string)
  (band_information : option (list (gmap string pyval))) :
  let out := create_byoc_collection self collection_name s3_bucket_name storage_id
               band_information in
  (out.2 = Ok tt
   <-> forall descriptors band,
         band_information = Some descriptors -> In band descriptors ->
         missing_fields_of band = [])
  /\ (out.2 = Ok tt ->
      exists created,
        byoc_collection out.1 = Some created
        /\ name created = collection_name
        /\ s3_bucket created = s3_bucket_name
        /\ requests (byoc_client out.1)
           = requests (byoc_client self) ++ [CreateCollection created]
        /\ catalog (byoc_client out.1) = catalog (byoc_client self)
        /\ file_list out.1 = file_list self)
  /\ (out.2 <> Ok tt -> out.1 = self).
Proof.
  cbn zeta. unfold create_byoc_collection.
  destruct (band_config_of storage_id band_information) as [config|e] eqn:Hconfig;
    cbn [fst snd create_collection].
  - split; [|split].
    + split; [|reflexivity]. intros _ descriptors band -> Hin.
      unfold band_config_of in Hconfig.
      destruct (for_each band_step descriptors ∅) as [parameters|] eqn:Hloop;
        [|discriminate].
      eapply (proj1 (bands_loop_is_ok descriptors ∅)); [by rewrite Hloop|exact Hin].
    + intros _. eexists. repeat split.
    + intros Hne. by destruct Hne.
  - split; [|split].
    + split; [discriminate|]. intros Hall. exfalso.
      destruct band_information as [descriptors|].
      * rewrite band_config_of_complete in Hconfig; [discriminate|].
        intros band Hin. by apply (Hall descriptors).
      * unfold band_config_of in Hconfig. by destruct storage_id as [[|c sid]|].
    + discriminate.
    + reflexivity.
Qed.




(** X17. Only the four required fields of a descriptor are read: two lists
    of complete descriptors that agree on name, source, bit depth and sample
    format, descriptor by descriptor, give the same call, whatever other
    keys they hold. *)
Theorem create_collection_ignores_other_keys (self : Ingestor)
  (collection_name s3_bucket_name : string) (storage_id : option string)
  (descriptors descriptors' : list (gmap string pyval)) :
  (forall band, In band descriptors -> missing_fields_of band = []) ->
  map band_entry descriptors = map band_entry descriptors' ->
  create_byoc_collection self collection_name s3_bucket_name storage_id
    (Some descriptors)
  = create_byoc_collection self collection_name s3_bucket_name storage_id
      (Some descriptors').
Proof.
  intros Hall Hsame.
  assert (forall band, In band descriptors' -> missing_fields_of band = []) as Hall'.
  { intros band Hin. apply band_complete_entry.
    assert (In (band_entry band) (map band_entry descriptors)) as Hentry
      by (rewrite Hsame; by apply in_map).
    apply in_map_iff in Hentry as (band0 & Heq & Hin0). rewrite <- Heq.
    by apply band_complete_entry, Hall. }
  unfold create_byoc_collection.
  rewrite (band_config_of_complete _ _ Hall), (band_config_of_complete _ _ Hall').
  by rewrite (bands_of_entries _ _ _ Hsame).
Qed.

Lemma create_collection_ignores_other_keys_witness :
  create_byoc_collection (ingestor_with no_catalog []) "S2" "bucket" None
    (Some [complete_band])
  = create_byoc_collection (ingestor_with no_catalog []) "S2" "bucket" None
      (Some [band_with_extra_key]).
Proof.
  apply (create_collection_ignores_other_keys (ingestor_with no_catalog [])
           "S2" "bucket" None [complete_band] [band_with_extra_key]).
  - intros band [<-|[]]. vm_compute. reflexivity.
  - vm_compute. reflexivity.
Defined.

(** ** More on list_tiles *)

Section ListMore.

Lemma startswith_refl s : startswith s s = true.
Proof.
  induction s as [|c s IH]; [reflexivity|]. cbn. unfold ascii_eqb.
  by rewrite Ascii.eqb_refl, IH.
Qed.

Lemma startswith_trans a b c :
  startswith a b = true -> startswith b c = true -> startswith a c = true.
Proof.
  revert a b. induction c as [|x c IH]; intros a b Hab Hbc; [apply startswith_empty|].
  destruct b as [|y b]; [discriminate|]. destruct a as [|z a]; [discriminate|].
  cbn in *. apply andb_prop in Hab as [Hyz Hab]. apply andb_prop in Hbc as [Hxy Hbc].
  unfold ascii_eqb in *. apply Ascii.eqb_eq in Hyz. apply Ascii.eqb_eq in Hxy. subst.
  by rewrite Ascii.eqb_refl, (IH a b Hab Hbc).
Qed.

Lemma page_of_keys keys : page_keys (page_of keys) = keys.
Proof.
  unfold page_of, page_keys. rewrite map_map. cbn. apply map_id.
Qed.

Lemma paged_keys size fuel : forall keys,
  flat_map page_keys (paged size fuel keys) = keys.
Proof.
  induction fuel as [|fuel IH]; intros keys.
  - destruct keys as [|key keys]; [reflexivity|].
    cbn [paged flat_map]. by rewrite page_of_keys, app_nil_r.
  - destruct keys as [|key keys]; [reflexivity|].
    cbn [paged flat_map]. rewrite page_of_keys, IH. apply take_drop.
Qed.

Lemma bucket_of_lists_by_prefix objects size bucket :
  lists_by_prefix (bucket_of objects size) bucket objects.
Proof.
  intros prefix. split; [|reflexivity].
  unfold bucket_of, listing_keys. cbn [pages]. apply paged_keys.
Qed.

Variable paginate : Paginator.
Variable params : TileListParameters.
Variable objects : list string.
Hypothesis Hstore : lists_by_prefix paginate (bucket_name params) objects.

Let listed := List.filter (fun key => startswith key (base_path params)) objects.

Lemma faithful_store_succeeds : listings_succeed paginate params = true.
Proof.
  unfold listings_succeed, no_error. apply andb_true_intro. split.
  - apply forallb_forall. intros key _. by destruct (Hstore key) as [_ ->].
  - by destruct (Hstore (base_path params)) as [_ ->].
Qed.

Lemma faithful_store_returned_keys :
  returned_keys paginate params
  = flat_map (fun prefix => List.filter (fun key => startswith key prefix) objects)
             listed.
Proof.
  unfold returned_keys. destruct (Hstore (base_path params)) as [-> _].
  fold listed. induction listed as [|key l IH]; [reflexivity|].
  cbn [flat_map]. destruct (Hstore key) as [-> _]. by rewrite IH.
Qed.

Lemma faithful_store_files self :
  list_tiles paginate self params
  = ({| byoc_client := byoc_client self;
        byoc_collection := byoc_collection self;
        file_list :=
          List.filter is_tiff
            (flat_map (fun prefix =>
                         List.filter (fun key => startswith key prefix) objects)
                      listed) |},
     Ok (List.filter is_tiff
           (flat_map (fun prefix =>
                        List.filter (fun key => startswith key prefix) objects)
                     listed))).
Proof.
  rewrite (list_tiles_ok paginate params self faithful_store_succeeds).
  by rewrite faithful_store_returned_keys.
Qed.

End ListMore.

Section Occurrences.

Lemma occurrences_app x l1 l2 :
  occurrences x (l1 ++ l2) = (occurrences x l1 + occurrences x l2)%nat.
Proof. unfold occurrences. by rewrite List.filter_app, length_app. Qed.

Lemma occurrences_filter x (p : string -> bool) l :
  occurrences x (List.filter p l) = if p x then occurrences x l else O.
Proof.
  unfold occurrences. induction l as [|y l IH]; [by destruct (p x)|].
  cbn [List.filter]. destruct (p y) eqn:Hy; cbn [List.filter].
  - destruct (String.eqb x y) eqn:Hxy.
    + apply String.eqb_eq in Hxy. subst y. rewrite Hy in *. cbn. by rewrite IH.
    + exact IH.
  - rewrite IH. destruct (String.eqb x y) eqn:Hxy; [|reflexivity].
    apply String.eqb_eq in Hxy. subst y. by rewrite Hy.
Qed.

Lemma occurrences_not_in x l : ~ In x l -> occurrences x l = O.
Proof.
  unfold occurrences. induction l as [|y l IH]; intros Hnot; [reflexivity|].
  cbn [List.filter]. destruct (String.eqb x y) eqn:Hxy.
  - apply String.eqb_eq in Hxy. subst y. exfalso. apply Hnot. by left.
  - apply IH. intros Hin. apply Hnot. by right.
Qed.

Lemma occurrences_NoDup x l : NoDup l -> In x l -> occurrences x l = 1%nat.
Proof.
  induction l as [|y l IH]; intros Hnd Hin; [destruct Hin|].
  pose proof (NoDup_cons_1_1 _ _ Hnd) as Hfresh. apply NoDup_cons_1_2 in Hnd.
  change (occurrences x (y :: l)) with (occurrences x ([y] ++ l)).
  rewrite occurrences_app. unfold occurrences at 1. cbn [List.filter].
  destruct (String.eqb x y) eqn:Hxy.
  - apply String.eqb_eq in Hxy. subst y.
    rewrite occurrences_not_in; [reflexivity|]. by rewrite <- list_elem_of_In.
  - destruct Hin as [->|Hin]; [by rewrite String.eqb_refl in Hxy|].
    by rewrite (IH Hnd Hin).
Qed.

Lemma occurrences_positive x l : In x l <-> (1 <= occurrences x l)%nat.
Proof.
  split.
  - intros Hin. destruct (occurrences x l) eqn:Hocc; [|lia].
    exfalso. unfold occurrences in Hocc.
    assert (In x (List.filter (String.eqb x) l)) as Hf
      by (apply filter_In; split; [done|apply String.eqb_refl]).
    destruct (List.filter (String.eqb x) l); [destruct Hf|discriminate].
  - intros Hocc. destruct (in_dec string_dec x l) as [Hin|Hnot]; [done|].
    rewrite (occurrences_not_in _ _ Hnot) in Hocc. lia.
Qed.

Lemma filter_sublist {A} (p : A -> bool) l : sublist (List.filter p l) l.
Proof.
  induction l as [|x l IH]; [constructor|]. cbn [List.filter].
  destruct (p x); [by apply sublist_skip|by apply sublist_cons].
Qed.

(** In a list without repetition, a test that only [x] passes selects [x]. *)
Lemma filter_only x (p : string -> bool) l :
  NoDup l -> In x l -> (forall y, In y l -> p y = true -> y = x) -> p x = true ->
  List.filter p l = [x].
Proof.
  induction l as [|y l IH]; intros Hnd Hin Honly Hx; [destruct Hin|].
  pose proof (NoDup_cons_1_1 _ _ Hnd) as Hfresh. apply NoDup_cons_1_2 in Hnd.
  assert (forall l', (forall z, In z l' -> p z = true -> z = x) -> ~ In x l' ->
                     List.filter p l' = []) as Hnone.
  { induction l' as [|z l' IH']; intros Honly' Hnot; [reflexivity|].
    cbn [List.filter]. destruct (p z) eqn:Hz.
    - exfalso. apply Hnot. left. by apply Honly'; [left|].
    - apply IH'; [|intros Hin'; apply Hnot; by right].
      intros w Hw. apply Honly'. by right. }
  cbn [List.filter]. destruct Hin as [->|Hin].
  - rewrite Hx. f_equal. apply Hnone; [|by rewrite <- list_elem_of_In].
    intros z Hz. apply Honly. by right.
  - destruct (p y) eqn:Hy.
    + assert (y = x) as -> by (apply Honly; [by left|done]).
      exfalso. by apply Hfresh, list_elem_of_In.
    + apply IH; [done|done| |done]. intros z Hz. apply Honly. by right.
Qed.

End Occurrences.

(** X18. Against a store that answers every listing in full, [list_tiles]
    finds every object under the base path that ends with one of the four
    suffixes, and nothing else: a key is in the result exactly when it is
    an object of the store, starts with the base path and has such a
    suffix. *)
Theorem list_tiles_finds_exactly_the_tiffs_under_prefix (paginate : Paginator)
  (self : Ingestor) (params : TileListParameters) (objects : list string) :
  lists_by_prefix paginate (bucket_name params) objects ->
  exists files,
    list_tiles paginate self params
    = ({| byoc_client := byoc_client self;
          byoc_collection := byoc_collection self;
          file_list := files |}, Ok files)
    /\ forall key,
         In key files
         <-> In key objects /\ startswith key (base_path params) = true
             /\ endswith_any key [".tiff"; ".tif"; ".TIF"; ".TIFF"] = true.
Proof.
  intros Hstore. eexists. split; [by apply faithful_store_files|].
  intros key. rewrite filter_In, in_flat_map. split.
  - intros [(prefix & Hprefix & Hkey) Htiff].
    apply filter_In in Hprefix as [_ Hbase]. apply filter_In in Hkey as [Hin Hstart].
    split; [exact Hin|]. split; [|exact Htiff].
    by apply (startswith_trans key prefix).
  - intros (Hin & Hbase & Htiff). split; [|exact Htiff].
    exists key. split; apply filter_In; split; try done. apply startswith_refl.
Qed.

Lemma list_tiles_finds_exactly_the_tiffs_under_prefix_witness :
  exists files,
    list_tiles (bucket_of ["S1/a.tif"; "S2/b.tif"; "S2/b.txt"; "S2/c/d.TIFF"] 1)
               (ingestor_with no_catalog ["old.tif"]) example_params
    = (ingestor_with no_catalog files, Ok files)
    /\ (In "S2/c/d.TIFF" files
        <-> In "S2/c/d.TIFF" ["S1/a.tif"; "S2/b.tif"; "S2/b.txt"; "S2/c/d.TIFF"]
            /\ startswith "S2/c/d.TIFF" "S2/" = true
            /\ endswith_any "S2/c/d.TIFF" [".tiff"; ".tif"; ".TIF"; ".TIFF"] = true).
Proof.
  destruct (list_tiles_finds_exactly_the_tiffs_under_prefix
              (bucket_of ["S1/a.tif"; "S2/b.tif"; "S2/b.txt"; "S2/c/d.TIFF"] 1)
              (ingestor_with no_catalog ["old.tif"]) example_params
              ["S1/a.tif"; "S2/b.tif"; "S2/b.txt"; "S2/c/d.TIFF"])
    as (files & Hlist & Hkeys); [apply bucket_of_lists_by_prefix|].
  exists files. split; [exact Hlist|apply Hkeys].
Defined.

(** X19. Against such a store, an object that would be kept is stored once
    for every listed key that is a prefix of it, itself included: the
    result repeats a key as many times as there are objects under the base
    path that the key starts with. *)
Theorem list_tiles_repeats_keys_with_listed_prefixes (paginate : Paginator)
  (self : Ingestor) (params : TileListParameters) (objects : list string)
  (key : string) :
  lists_by_prefix paginate (bucket_name params) objects ->
  NoDup objects ->
  In key objects ->
  endswith_any key [".tiff"; ".tif"; ".TIF"; ".TIFF"] = true ->
  exists files,
    (list_tiles paginate self params).2 = Ok files
    /\ occurrences key files
       = length (List.filter (fun prefix => startswith key prefix)
                   (List.filter (fun object => startswith object (base_path params))
                                objects))
    /\ (startswith key (base_path params) = true -> (1 <= occurrences key files)%nat).
Proof.
  intros Hstore Hnd Hin Htiff. eexists.
  rewrite (faithful_store_files paginate params objects Hstore self). cbn [snd].
  split; [reflexivity|].
  assert (forall prefixes,
            occurrences key
              (List.filter is_tiff
                 (flat_map (fun prefix =>
                              List.filter (fun object => startswith object prefix) objects)
                           prefixes))
            = length (List.filter (fun prefix => startswith key prefix) prefixes))
    as Hcount.
  { intros prefixes. rewrite occurrences_filter.
    change (is_tiff key) with (endswith_any key [".tiff"; ".tif"; ".TIF"; ".TIFF"]).
    rewrite Htiff.
    induction prefixes as [|prefix prefixes IH]; [reflexivity|].
    cbn [flat_map List.filter]. rewrite occurrences_app, IH, occurrences_filter.
    destruct (startswith key prefix); [|reflexivity].
    by rewrite (occurrences_NoDup key objects Hnd Hin). }
  split; [apply Hcount|].
  intros Hbase. rewrite Hcount.
  assert (In key (List.filter (fun prefix => startswith key prefix)
                    (List.filter (fun object => startswith object (base_path params))
                                 objects))) as Hself.
  { apply filter_In. split; [|apply startswith_refl]. apply filter_In. by split. }
  destruct (List.filter _ _); [destruct Hself|cbn; lia].
Qed.

Lemma list_tiles_repeats_keys_with_listed_prefixes_witness :
  exists files,
    (list_tiles (bucket_of ["S2/a.tif"; "S2/a.tiff"; "S2/a.tif.ovr.tif"] 0)
                (ingestor_with no_catalog []) example_params).2 = Ok files
    /\ occurrences "S2/a.tif.ovr.tif" files = 2%nat.
Proof.
  destruct (list_tiles_repeats_keys_with_listed_prefixes
              (bucket_of ["S2/a.tif"; "S2/a.tiff"; "S2/a.tif.ovr.tif"] 0)
              (ingestor_with no_catalog []) example_params
              ["S2/a.tif"; "S2/a.tiff"; "S2/a.tif.ovr.tif"] "S2/a.tif.ovr.tif")
    as (files & Hlist & Hcount & _).
  - apply bucket_of_lists_by_prefix.
  - apply NoDup_ListNoDup. repeat constructor; cbn; intuition discriminate.
  - right. right. left. reflexivity.
  - reflexivity.
  - exists files. split; [exact Hlist|]. rewrite Hcount. reflexivity.
Defined.

(** X20. Against such a store whose keys are distinct and none of which is
    the start of another, [list_tiles] returns the objects under the base
    path that have one of the four suffixes, each once, in the order of the
    store. *)
Theorem list_tiles_on_prefix_free_store (paginate : Paginator)
  (self : Ingestor) (params : TileListParameters) (objects : list string) :
  lists_by_prefix paginate (bucket_name params) objects ->
  NoDup objects ->
  (forall key other, In key objects -> In other objects ->
                     startswith other key = true -> other = key) ->
  exists files,
    (list_tiles paginate self params).2 = Ok files
    /\ file_list (list_tiles paginate self params).1 = files
    /\ files = List.filter
                 (fun key => endswith_any key [".tiff"; ".tif"; ".TIF"; ".TIFF"])
                 (List.filter (fun key => startswith key (base_path params)) objects)
    /\ NoDup files.
Proof.
  intros Hstore Hnd Hfree. eexists.
  rewrite (faithful_store_files paginate params objects Hstore self). cbn [fst snd file_list].
  split; [reflexivity|]. split; [reflexivity|].
  assert (forall prefixes, (forall key, In key prefixes -> In key objects) ->
            flat_map (fun prefix =>
                        List.filter (fun object => startswith object prefix) objects)
                     prefixes = prefixes) as Hflat.
  { induction prefixes as [|prefix prefixes IH]; intros Hsub; [reflexivity|].
    cbn [flat_map]. rewrite IH by (intros key Hkey; apply Hsub; by right).
    rewrite (filter_only prefix); [reflexivity|exact Hnd| | |apply startswith_refl].
    - apply Hsub. by left.
    - intros other Hother Hstart. apply (Hfree prefix other); [|done|done].
      apply Hsub. by left. }
  rewrite Hflat by (intros key Hkey; by apply filter_In in Hkey as [? _]).
  split; [reflexivity|].
  eapply sublist_NoDup; [exact Hnd|].
  etrans; apply filter_sublist.
Qed.

Lemma list_tiles_on_prefix_free_store_witness :
  exists files,
    (list_tiles (bucket_of ["S1/a.tif"; "S2/b.tif"; "S2/b.txt"; "S2/c/d.TIFF"] 1)
                (ingestor_with no_catalog ["old.tif"]) example_params).2 = Ok files
    /\ files = ["S2/b.tif"; "S2/c/d.TIFF"].
Proof.
  destruct (list_tiles_on_prefix_free_store
              (bucket_of ["S1/a.tif"; "S2/b.tif"; "S2/b.txt"; "S2/c/d.TIFF"] 1)
              (ingestor_with no_catalog ["old.tif"]) example_params
              ["S1/a.tif"; "S2/b.tif"; "S2/b.txt"; "S2/c/d.TIFF"])
    as (files & Hlist & _ & Hfiles & _).
  - apply bucket_of_lists_by_prefix.
  - apply NoDup_ListNoDup. repeat constructor; cbn; intuition discriminate.
  - intros key other Hkey Hother.
    destruct Hkey as [<-|[<-|[<-|[<-|[]]]]];
      destruct Hother as [<-|[<-|[<-|[<-|[]]]]];
      try reflexivity; cbn; discriminate.
  - exists files. split; [exact Hlist|]. rewrite Hfiles. reflexivity.
Defined.

(** X21. When the listing under the base path returns no key and does not
    fail, be it without pages, with pages that have no "Contents" or with
    empty ones, [list_tiles] returns the empty list and stores it in place
    of whatever file list the Ingestor held. *)
Theorem list_tiles_on_empty_listing_clears_file_list (paginate : Paginator)
  (self : Ingestor) (params : TileListParameters) :
  listing_keys (paginate (bucket_name params) (base_path params)) = [] ->
  listing_error (paginate (bucket_name params) (base_path params)) = None ->
  list_tiles paginate self params
  = ({| byoc_client := byoc_client self;
        byoc_collection := byoc_collection self;
        file_list := [] |}, Ok []).
Proof.
  intros Hkeys Herror.
  assert (listings_succeed paginate params = true) as Hok.
  { unfold listings_succeed, no_error. by rewrite Hkeys, Herror. }
  rewrite (list_tiles_ok paginate params self Hok).
  unfold returned_keys. by rewrite Hkeys.
Qed.

Lemma list_tiles_on_empty_listing_clears_file_list_witness :
  list_tiles empty_bucket (ingestor_with no_catalog ["old/B01.tif"]) example_params
  = (ingestor_with no_catalog [], Ok []).
Proof.
  apply (list_tiles_on_empty_listing_clears_file_list empty_bucket
           (ingestor_with no_catalog ["old/B01.tif"]) example_params);
    reflexivity.
Defined.
